(** * pdf-parser-demo: the [PDFParser] session and its front ends

    A shallow embedding of [pdf_parser.py], [cli.py] and the worker of
    [gui.py].  The Python code is a thin orchestration layer: every
    method calls one third-party library, moves files around a scratch
    directory and swallows exceptions.  The embedding therefore consists of

    - a file-system model (a finite map from paths to nodes),
    - a log of the records handed to [logging],
    - the third-party libraries as an interface ([Libs]) whose calls
      either return a value or raise,
    - a state-and-exception monad [M] in which the methods are written
      statement by statement, [try]/[except] included.

    What the model takes for granted:

    - every exception is an [Exception] (what [except Exception] catches);
      [logging] itself never raises;
    - a library call is a function of the bytes of the file it reads and of
      the options it is given, so calling it twice on the same file gives
      the same answer;
    - file-system calls fail only for structural reasons (a missing parent,
      a directory where a file is expected, ...), never for lack of space
      or permissions; [mkdtemp] always finds an unused name;
    - saving a workbook fails only if the file cannot be written. *)

From stdpp Require Import gmap strings list fin_maps pretty.
From Stdlib Require Import Ascii String.

Local Open Scope string_scope.
Local Open Scope list_scope.

(** ** Paths

    A [pathlib.Path] is modelled by its sequence of components
    ([Path.parts] without the anchor); the empty sequence is the root.
    Python [str] and [bytes] values are both byte strings. *)

Abbreviation path := (list string).
Abbreviation bytes := string.

(** [p / name] for a separator-free, non-empty [name]. *)
Definition truediv (p : path) (name : string) : path := p ++ [name].
Infix "//" := truediv (at level 40, left associativity).

(** [Path.parent]; the root is its own parent. *)
Definition path_parent (p : path) : path := removelast p.

(** [Path.name]: the last component, [''] for the root. *)
Definition path_name (p : path) : string := List.last p "".

Arguments truediv : simpl never.
Arguments path_parent : simpl never.
Arguments path_name : simpl never.

(** [str.rfind('.')]: index of the last dot, if any. *)
Fixpoint rfind_dot (s : string) : option nat :=
  match s with
  | EmptyString => None
  | String c s' =>
      match rfind_dot s' with
      | Some i => Some (S i)
      | None => if Ascii.eqb c "." then Some 0 else None
      end
  end.

(** [Path.stem]: the name without its last suffix;
    [if 0 < i < len(name) - 1: name[:i] else: name]. *)
Definition path_stem (p : path) : string :=
  let name := path_name p in
  match rfind_dot name with
  | Some i =>
      if bool_decide (0 < i) && bool_decide (i < String.length name - 1)
      then String.substring 0 i name else name
  | None => name
  end.

(** ** Exceptions, results, log records *)

Inductive exn_class :=
  | FileNotFoundError | FileExistsError | NotADirectoryError
  | IsADirectoryError | SameFileError | KeyError | CalledProcessError
  | LibraryError.

(** Every class above derives from [Exception]; [str(e)] is [exn_msg]. *)
Record exn := Exn { exn_cls : exn_class; exn_msg : string }.

Inductive result (A : Type) :=
  | Return (a : A)
  | Raise (e : exn).
Arguments Return {A} a.
Arguments Raise {A} e.

Inductive level := INFO | WARNING | ERROR.
Definition log_record : Type := level * string.

#[global] Instance exn_class_eq_dec : EqDecision exn_class.
Proof. solve_decision. Defined.
#[global] Instance level_eq_dec : EqDecision level.
Proof. solve_decision. Defined.

(** ** The file system and the world *)

Inductive node :=
  | Dir
  | File (content : bytes).

#[global] Instance node_eq_dec : EqDecision node.
Proof. solve_decision. Defined.

(** An element of [unstructured]: category and text. *)
Definition element : Type := string * string.

(** The state of the GUI worker object: the Qt signals it has emitted and
    its [results] dict. *)
Inductive pyval :=
  | VStr (s : string)
  | VPath (p : path)
  | VPaths (l : list path)
  | VElements (l : list element).

Inductive signal :=
  | update_progress (percent : nat) (msg : string)
  | finished (results : gmap string pyval)
  | error (msg : string).

Record worker_state := Worker {
  signals : list signal;
  results : gmap string pyval
}.

Record world := World {
  fs : gmap path node;
  log : list log_record;
  cwd : path;
  worker : worker_state
}.

Definition set_fs (m : gmap path node) (w : world) : world :=
  World m (log w) (cwd w) (worker w).
Definition add_log (r : log_record) (w : world) : world :=
  World (fs w) (log w ++ [r]) (cwd w) (worker w).
Definition set_worker (k : worker_state) (w : world) : world :=
  World (fs w) (log w) (cwd w) k.

(** [os.stat]: the root always exists and is a directory. *)
Definition stat (m : gmap path node) (p : path) : option node :=
  match p with
  | [] => Some Dir
  | _ => m !! p
  end.

Definition exists_ (m : gmap path node) (p : path) : bool :=
  match stat m p with Some _ => true | None => false end.
Definition is_dir (m : gmap path node) (p : path) : bool :=
  match stat m p with Some Dir => true | _ => false end.
Definition is_file (m : gmap path node) (p : path) : bool :=
  match stat m p with Some (File _) => true | _ => false end.

(** ** The monad of Python statements *)

Definition M (A : Type) : Type := world → result A * world.

#[global] Instance M_ret : MRet M := λ A a w, (Return a, w).
#[global] Instance M_bind : MBind M := λ A B f m w,
  match m w with
  | (Return a, w') => f a w'
  | (Raise e, w') => (Raise e, w')
  end.

Definition raise {A} (e : exn) : M A := λ w, (Raise e, w).

(** [try: body  except Exception as e: handler e] *)
Definition try_except {A} (body : M A) (handler : exn → M A) : M A := λ w,
  match body w with
  | (Return a, w') => (Return a, w')
  | (Raise e, w') => handler e w'
  end.

Definition lift {A} (r : result A) : M A := λ w, (r, w).
Definition get_fs : M (gmap path node) := λ w, (Return (fs w), w).
Definition put_fs (m : gmap path node) : M unit := λ w, (Return tt, set_fs m w).
Definition logger (l : level) (msg : string) : M unit := λ w,
  (Return tt, add_log (l, msg) w).

(** [for x in l: body x], with the loop-carried variable [acc]. *)
Fixpoint for_loop {A S} (l : list A) (body : S → A → M S) (acc : S) : M S :=
  match l with
  | [] => mret acc
  | x :: l' => acc' ← body acc x; for_loop l' body acc'
  end.

(** ** File-system primitives *)

(** [str(p)] *)
Definition msg_of (p : path) : string := "/" +:+ String.concat "/" p.

(** [open(p, 'rb').read()] *)
Definition read_file (p : path) : M bytes :=
  m ← get_fs;
  match stat m p with
  | Some (File b) => mret b
  | Some Dir => raise (Exn IsADirectoryError (msg_of p))
  | None => raise (Exn FileNotFoundError (msg_of p))
  end.

(** [open(p, 'wb').write(b)]: the parent must be a directory and the
    target must not be one. *)
Definition write_file (p : path) (b : bytes) : M unit :=
  m ← get_fs;
  match stat m (path_parent p) with
  | None => raise (Exn FileNotFoundError (msg_of p))
  | Some (File _) => raise (Exn NotADirectoryError (msg_of p))
  | Some Dir =>
      match stat m p with
      | Some Dir => raise (Exn IsADirectoryError (msg_of p))
      | _ => put_fs (<[p := File b]> m)
      end
  end.

(** [os.mkdir(p)] *)
Definition os_mkdir (p : path) : M unit :=
  m ← get_fs;
  match stat m p with
  | Some _ => raise (Exn FileExistsError (msg_of p))
  | None =>
      match stat m (path_parent p) with
      | None => raise (Exn FileNotFoundError (msg_of p))
      | Some (File _) => raise (Exn NotADirectoryError (msg_of p))
      | Some Dir => put_fs (<[p := Dir]> m)
      end
  end.

(** [Path.mkdir(parents, exist_ok)], as in [pathlib]:
<<
    try: os.mkdir(self)
    except FileNotFoundError:
        if not parents or self.parent == self: raise
        self.parent.mkdir(parents=True, exist_ok=True)
        self.mkdir(parents=False, exist_ok=exist_ok)
    except OSError:
        if not exist_ok or not self.is_dir(): raise
>>
    The recursion climbs towards the root, so [length p] is enough fuel. *)
Fixpoint Path_mkdir_go (fuel : nat) (parents exist_ok : bool) (p : path) : M unit :=
  try_except (os_mkdir p) (λ e,
    match exn_cls e with
    | FileNotFoundError =>
        if negb parents || bool_decide (path_parent p = p) then raise e
        else match fuel with
             | 0 => raise e
             | S fuel' =>
                 Path_mkdir_go fuel' true true (path_parent p);;
                 try_except (os_mkdir p) (λ e',
                   match exn_cls e' with
                   | FileNotFoundError => raise e'
                   | _ =>
                       m ← get_fs;
                       if negb exist_ok || negb (is_dir m p) then raise e'
                       else mret tt
                   end)
             end
    | _ =>
        m ← get_fs;
        if negb exist_ok || negb (is_dir m p) then raise e else mret tt
    end).

Definition Path_mkdir (parents exist_ok : bool) (p : path) : M unit :=
  Path_mkdir_go (List.length p) parents exist_ok p.

(** [shutil.rmtree(d)]: removes [d] and everything below it. *)
Definition rmtree (d : path) : M unit :=
  m ← get_fs;
  match stat m d with
  | None => raise (Exn FileNotFoundError (msg_of d))
  | Some (File _) => raise (Exn NotADirectoryError (msg_of d))
  | Some Dir => put_fs (filter (λ kv, ¬ d `prefix_of` kv.1) m)
  end.

(** [shutil.copy2(src, dst)]: a [dst] that is a directory stands for the
    file of the same name inside it; copying a file onto itself raises. *)
Definition copy2 (src dst : path) : M unit :=
  m ← get_fs;
  let dst := if is_dir m dst then dst // path_name src else dst in
  if bool_decide (src = dst) then raise (Exn SameFileError (msg_of src))
  else b ← read_file src; write_file dst b.

(** [d.glob('*')]: the entries directly inside [d]. *)
Definition glob_star (m : gmap path node) (d : path) : list path :=
  filter (λ p, p ≠ [] ∧ path_parent p = d) (map_to_list m).*1.

(** [tempfile.gettempdir()] and [tempfile.mkdtemp()].

    [mkdtemp] tries candidate names until [os.mkdir] stops answering
    [FileExistsError].  The random candidate names of the library are
    replaced by the sequence [tmp0], [tmp1], ...; a candidate is skipped
    when it, or anything below it, is present in the map (on a map in which
    every entry has its parent this is exactly [FileExistsError]).  One more
    candidate than there are names in use is always enough. *)
Definition gettempdir : path := ["tmp"].
Definition tmp_name (i : nat) : string := "tmp" +:+ pretty i.

Definition first_below (d k : path) : option string :=
  if decide (d `prefix_of` k) then head (drop (List.length d) k) else None.

Definition used_names (m : gmap path node) (d : path) : list string :=
  omap (first_below d) (map_to_list m).*1.

Definition mkdtemp : M path :=
  m ← get_fs;
  let used := used_names m gettempdir in
  match list_find (λ c, c ∉ used) (tmp_name <$> seq 0 (S (List.length used))) with
  | Some (_, c) =>
      put_fs (<[gettempdir // c := Dir]> m);;
      mret (gettempdir // c)
  | None => raise (Exn FileExistsError "No usable temporary directory name found")
  end.

(** ** The third-party libraries

    Each library call is a function of the bytes of the file it is pointed
    at (and of the options the code passes); it returns or raises. *)

Record ocr_options := OcrOptions {
  language : string;
  skip_text : bool;
  force_ocr : bool;
  progress_bar : bool
}.

(** The dict returned by [doc.extract_image(xref)]. *)
Record base_image := BaseImage { image : bytes; ext : string }.

(** A [fitz] document: per page the xrefs ([img[0]]) listed by
    [page.get_images()], and [doc.extract_image]. *)
Record document := Document {
  doc_pages : list (list Z);
  doc_extract_image : Z → result base_image
}.

(** A [DataFrame], by rows of cells. *)
Definition table : Type := list (list string).
Class Libs := {
  (** [ocrmypdf.ocr]: the OCR'd document for the input bytes. *)
  ocrmypdf_ocr : ocr_options → bytes → result bytes;
  (** [pdfminer.high_level.extract_text] *)
  pdfminer_extract_text : bytes → result string;
  (** [fitz.open] *)
  fitz_open : bytes → result document;
  (** [gm convert <file> <options> <file>]: the bytes left in the file, and
      the error if the process did not exit with status 0. *)
  gm_convert : list string → bytes → bytes * option exn;
  (** [tabula.read_pdf(path, pages, multiple_tables, guess)] *)
  tabula_read_pdf : string → bool → bool → bytes → result (list table);
  (** what [pandas.ExcelWriter] saves for a list of named sheets *)
  xlsx_of_sheets : list (string * table) → bytes;
  (** [unstructured.partition.pdf.partition_pdf(filename, strategy)] *)
  partition_pdf : string → bytes → result (list element)
}.

(** [enumerate(l, start)] *)
Fixpoint enumerate {A} (start : nat) (l : list A) : list (nat * A) :=
  match l with
  | [] => []
  | x :: l' => (start, x) :: enumerate (S start) l'
  end.

(** ** [class PDFParser] *)

Record PDFParser := mkPDFParser {
  pdf_path : path;
  temp_dir : path;
  ocr_path : path
}.

Section parser.
Context `{L : Libs}.

Definition PDFParser_init (p : path) : M PDFParser :=
  m ← get_fs;
  if negb (exists_ m p)
  then raise (Exn FileNotFoundError ("PDF文件不存在: " +:+ msg_of p))
  else
    d ← mkdtemp;
    mret {| pdf_path := p; temp_dir := d;
            ocr_path := d // ("ocr_" +:+ path_name p) |}.

(** The call [ocrmypdf.ocr(input_file, output_file, ...)]: reads the
    input, writes the output. *)
Definition ocrmypdf_ocr_call (input_file output_file : path)
    (o : ocr_options) : M unit :=
  b ← read_file input_file;
  out ← lift (ocrmypdf_ocr o b);
  write_file output_file out.

Definition perform_ocr (self : PDFParser) : M path :=
  logger INFO "开始执行 OCR 处理...";;
  try_except
    (ocrmypdf_ocr_call (pdf_path self) (ocr_path self)
       {| language := "chi_sim+eng"; skip_text := true;
          force_ocr := false; progress_bar := false |};;
     logger INFO "OCR 处理完成";;
     mret (ocr_path self))
    (λ e,
       logger ERROR ("OCR 处理失败: " +:+ exn_msg e);;
       mret (pdf_path self)).

Definition extract_text_with_pdfminer (self : PDFParser) : M string :=
  logger INFO "使用 PDFMiner 提取文本...";;
  try_except
    (b ← read_file (pdf_path self);
     text ← lift (pdfminer_extract_text b);
     mret text)
    (λ e,
       logger ERROR ("文本提取失败: " +:+ exn_msg e);;
       mret "").

(** [subprocess.run(['gm', 'convert', p, '-strip', '-quality', '85', p],
    check=True)] *)
Definition subprocess_run_gm (image_path : path) : M unit :=
  b ← read_file image_path;
  let r := gm_convert ["-strip"; "-quality"; "85"] b in
  write_file image_path r.1;;
  match r.2 with
  | Some e => raise e
  | None => mret tt
  end.

Definition _optimize_image (image_path : path) : M unit :=
  try_except
    (subprocess_run_gm image_path)
    (λ e, logger WARNING ("图片优化失败: " +:+ exn_msg e)).

Definition image_name (page_num img_index : nat) (e : string) : string :=
  "image_p" +:+ pretty (page_num + 1) +:+ "_" +:+ pretty (img_index + 1)
    +:+ "." +:+ e.

(** The body of [for img_index, img in enumerate(image_list)]. *)
Definition extract_images_image (images_dir : path) (doc : document)
    (page_num : nat) (image_count : nat) (img : nat * Z) : M nat :=
  let '(img_index, xref) := img in
  base_image ← lift (doc_extract_image doc xref);
  let image_filename :=
    images_dir // image_name page_num img_index (ext base_image) in
  write_file image_filename (image base_image);;
  let image_count := image_count + 1 in
  _optimize_image image_filename;;
  mret image_count.

(** The body of [for page_num in range(len(doc))]. *)
Definition extract_images_page (images_dir : path) (doc : document)
    (image_count : nat) (page : nat * list Z) : M nat :=
  let '(page_num, image_list) := page in
  for_loop (enumerate 0 image_list)
    (extract_images_image images_dir doc page_num) image_count.

Definition extract_images (self : PDFParser) : M (option path) :=
  logger INFO "开始提取图片...";;
  let images_dir := temp_dir self // "images" in
  Path_mkdir false true images_dir;;
  try_except
    (b ← read_file (pdf_path self);
     doc ← lift (fitz_open b);
     image_count ←
       for_loop (enumerate 0 (doc_pages doc))
         (extract_images_page images_dir doc) 0;
     logger INFO ("成功提取 " +:+ pretty image_count +:+ " 张图片到 "
                  +:+ msg_of images_dir);;
     mret (Some images_dir))
    (λ e,
       logger ERROR ("图片提取失败: " +:+ exn_msg e);;
       mret None).

Definition sheet_name (i : nat) : string := "Table_" +:+ pretty i.

(** [with pd.ExcelWriter(excel_path) as writer: for i, table in
    enumerate(tables, 1): table.to_excel(writer, sheet_name=...)]:
    the sheets are collected in order and saved when the block exits. *)
Definition ExcelWriter (excel_path : path) (tables : list table) : M unit :=
  sheets ← for_loop (enumerate 1 tables) (λ sheets '(i, t),
              mret (sheets ++ [(sheet_name i, t)])) [];
  write_file excel_path (xlsx_of_sheets sheets).

Definition extract_tables (self : PDFParser) : M (option path) :=
  logger INFO "开始提取表格...";;
  try_except
    (b ← read_file (pdf_path self);
     tables ← lift (tabula_read_pdf "all" true true b);
     match tables with
     | _ :: _ =>
         let excel_path :=
           temp_dir self // ("tables_" +:+ path_stem (pdf_path self) +:+ ".xlsx") in
         ExcelWriter excel_path tables;;
         logger INFO ("成功提取 " +:+ pretty (List.length tables)
                      +:+ " 个表格到 " +:+ msg_of excel_path);;
         mret (Some excel_path)
     | [] => mret None
     end)
    (λ e,
       logger ERROR ("表格提取失败: " +:+ exn_msg e);;
       mret None).

Definition extract_structured_content (self : PDFParser) : M (list element) :=
  logger INFO "开始提取结构化内容...";;
  try_except
    (b ← read_file (pdf_path self);
     elements ← lift (partition_pdf "fast" b);
     mret elements)
    (λ e,
       logger ERROR ("结构化内容提取失败: " +:+ exn_msg e);;
       mret []).

Definition cleanup (self : PDFParser) : M unit :=
  try_except
    (rmtree (temp_dir self);;
     logger INFO "临时文件清理完成")
    (λ e, logger ERROR ("临时文件清理失败: " +:+ exn_msg e)).

End parser.

(** ** [cli.py] *)

(** The namespace [argparse] returns.  [--output] is absent when the option
    is missing or empty. *)
Record Args := mkArgs {
  arg_input : path;
  arg_output : option path;
  arg_ocr : bool;
  arg_extract_text : bool;
  arg_extract_images : bool;
  arg_extract_tables : bool;
  arg_extract_all : bool;
  arg_keep_temp : bool;
  arg_verbose : bool
}.

Definition get_cwd : M path := λ w, (Return (cwd w), w).

Section cli.
Context `{L : Libs}.

Definition setup_output_dir (output_dir : option path) : M path :=
  c ← get_cwd;
  let output_path :=
    match output_dir with
    | Some d => d
    | None => c // "pdf_output"
    end in
  Path_mkdir true true output_path;;
  mret output_path.

Definition save_text (text : string) (output_dir : path) : M (option path) :=
  if bool_decide (text = "") then
    logger WARNING "没有提取到文本内容";;
    mret None
  else
    let output_file := output_dir // "extracted_text.txt" in
    write_file output_file text;;
    logger INFO ("文本已保存到: " +:+ msg_of output_file);;
    mret (Some output_file).

(** [src_dir] is a [Path] here, hence true as a condition. *)
Definition copy_files (src_dir dst_dir : path) : M unit :=
  m ← get_fs;
  if negb (exists_ m src_dir) then mret tt
  else
    Path_mkdir true true dst_dir;;
    m ← get_fs;
    for_loop (glob_star m src_dir) (λ _ item,
      m ← get_fs;
      if is_file m item then copy2 item (dst_dir // path_name item)
      else mret tt) tt;;
    logger INFO ("文件已复制到: " +:+ msg_of dst_dir).

(** Lines 84-93: with none of the four operation flags, [extract_all] is
    set; [extract_all] sets the four flags. *)
Definition resolve_flags (args : Args) : Args :=
  let args :=
    if negb (arg_ocr args || arg_extract_text args
             || arg_extract_images args || arg_extract_tables args)
    then mkArgs (arg_input args) (arg_output args) (arg_ocr args)
           (arg_extract_text args) (arg_extract_images args)
           (arg_extract_tables args) true (arg_keep_temp args)
           (arg_verbose args)
    else args in
  if arg_extract_all args
  then mkArgs (arg_input args) (arg_output args) true true true true
         (arg_extract_all args) (arg_keep_temp args) (arg_verbose args)
  else args.

(** The four blocks of [main] between the constructor and [cleanup]. *)
Definition main_ocr (args : Args) (parser : PDFParser) (output_dir : path)
    : M unit :=
  if arg_ocr args then
    logger INFO "执行OCR处理...";;
    ocr_pdf_path ← perform_ocr parser;
    m ← get_fs;
    if exists_ m ocr_pdf_path then
      let ocr_output := output_dir // ("ocr_" +:+ path_name (arg_input args)) in
      copy2 ocr_pdf_path ocr_output;;
      logger INFO ("OCR处理后的PDF已保存到: " +:+ msg_of ocr_output)
    else mret tt
  else mret tt.

Definition main_text (args : Args) (parser : PDFParser) (output_dir : path)
    : M unit :=
  if arg_extract_text args then
    logger INFO "提取文本...";;
    text ← extract_text_with_pdfminer parser;
    save_text text output_dir;;
    mret tt
  else mret tt.

Definition main_images (args : Args) (parser : PDFParser) (output_dir : path)
    : M unit :=
  if arg_extract_images args then
    logger INFO "提取图片...";;
    images_dir ← extract_images parser;
    match images_dir with
    | Some images_dir => copy_files images_dir (output_dir // "images")
    | None => mret tt
    end
  else mret tt.

Definition main_tables (args : Args) (parser : PDFParser) (output_dir : path)
    : M unit :=
  if arg_extract_tables args then
    logger INFO "提取表格...";;
    tables_path ← extract_tables parser;
    match tables_path with
    | Some tables_path =>
        m ← get_fs;
        if exists_ m tables_path then
          let tables_output :=
            output_dir // ("tables_" +:+ path_stem (arg_input args) +:+ ".xlsx") in
          copy2 tables_path tables_output;;
          logger INFO ("表格已保存到: " +:+ msg_of tables_output)
        else mret tt
    | None => mret tt
    end
  else mret tt.

(** What follows the OCR block inside the [try] of [main]. *)
Definition main_after_ocr (args : Args) (parser : PDFParser)
    (output_dir : path) : M nat :=
  main_text args parser output_dir;;
  main_images args parser output_dir;;
  main_tables args parser output_dir;;
  (if negb (arg_keep_temp args) then cleanup parser else mret tt);;
  logger INFO ("所有处理完成，结果保存在: " +:+ msg_of output_dir);;
  mret 0.

(** [main]: the exit status.  [setup_output_dir] runs outside the [try]
    block.  The root logger's level ([--verbose]) filters none of the
    records modelled here. *)
Definition main (args : Args) : M nat :=
  let input_path := arg_input args in
  m ← get_fs;
  if negb (exists_ m input_path) then
    logger ERROR ("输入文件不存在: " +:+ msg_of input_path);;
    mret 1
  else
    output_dir ← setup_output_dir (arg_output args);
    let args := resolve_flags args in
    try_except
      (parser ← PDFParser_init input_path;
       main_ocr args parser output_dir;;
       main_after_ocr args parser output_dir)
      (λ e,
         logger ERROR ("处理过程中出现错误: " +:+ exn_msg e);;
         mret 1).
End cli.

(** ** [gui.py]: [WorkerThread] *)

Record WorkerThread := mkWorkerThread {
  wt_pdf_path : path;
  wt_output_dir : path;
  wt_options : gmap string bool
}.

(** [options.get(key, False)] *)
Definition option_get (options : gmap string bool) (key : string) : bool :=
  default false (options !! key).

Definition emit (s : signal) : M unit := λ w,
  (Return tt, set_worker (Worker (signals (worker w) ++ [s]) (results (worker w))) w).

(** [self.results[key] = v] *)
Definition set_result (key : string) (v : pyval) : M unit := λ w,
  (Return tt,
   set_worker (Worker (signals (worker w)) (<[key := v]> (results (worker w)))) w).

Definition get_results : M (gmap string pyval) := λ w,
  (Return (results (worker w)), w).

Section gui.
Context `{L : Libs}.

Definition run_ocr (self : WorkerThread) (parser : PDFParser) : M unit :=
  if option_get (wt_options self) "ocr" then
    emit (update_progress 10 "执行OCR处理...");;
    ocr_pdf_path ← perform_ocr parser;
    m ← get_fs;
    if exists_ m ocr_pdf_path then
      let ocr_output :=
        wt_output_dir self // ("ocr_" +:+ path_name (wt_pdf_path self)) in
      copy2 ocr_pdf_path ocr_output;;
      set_result "ocr_pdf" (VPath ocr_output)
    else mret tt
  else mret tt.

Definition run_text (self : WorkerThread) (parser : PDFParser) : M unit :=
  if option_get (wt_options self) "extract_text" then
    emit (update_progress 30 "提取文本...");;
    text ← extract_text_with_pdfminer parser;
    if bool_decide (text = "") then mret tt
    else
      let text_output := wt_output_dir self // "extracted_text.txt" in
      write_file text_output text;;
      set_result "text" (VPath text_output);;
      set_result "text_content" (VStr text)
  else mret tt.

Definition run_images (self : WorkerThread) (parser : PDFParser) : M unit :=
  if option_get (wt_options self) "extract_images" then
    emit (update_progress 50 "提取图片...");;
    images_dir ← extract_images parser;
    match images_dir with
    | Some images_dir =>
        let images_output := wt_output_dir self // "images" in
        Path_mkdir true true images_output;;
        m ← get_fs;
        image_files ← for_loop (glob_star m images_dir) (λ image_files item,
          m ← get_fs;
          if is_file m item then
            let dest_file := images_output // path_name item in
            copy2 item dest_file;;
            mret (image_files ++ [dest_file])
          else mret image_files) [];
        set_result "images_dir" (VPath images_output);;
        set_result "image_files" (VPaths image_files)
    | None => mret tt
    end
  else mret tt.

Definition run_tables (self : WorkerThread) (parser : PDFParser) : M unit :=
  if option_get (wt_options self) "extract_tables" then
    emit (update_progress 70 "提取表格...");;
    tables_path ← extract_tables parser;
    match tables_path with
    | Some tables_path =>
        m ← get_fs;
        if exists_ m tables_path then
          let tables_output :=
            wt_output_dir self
              // ("tables_" +:+ path_stem (wt_pdf_path self) +:+ ".xlsx") in
          copy2 tables_path tables_output;;
          set_result "tables" (VPath tables_output)
        else mret tt
    | None => mret tt
    end
  else mret tt.

Definition run_structured (self : WorkerThread) (parser : PDFParser) : M unit :=
  if option_get (wt_options self) "extract_structured" then
    emit (update_progress 90 "提取结构化内容...");;
    elements ← extract_structured_content parser;
    match elements with
    | _ :: _ => set_result "structured_elements" (VElements elements)
    | [] => mret tt
    end
  else mret tt.

(** What follows the OCR block inside the [try] of [run]. *)
Definition run_after_ocr (self : WorkerThread) (parser : PDFParser) : M unit :=
  run_text self parser;;
  run_images self parser;;
  run_tables self parser;;
  run_structured self parser;;
  (if negb (option_get (wt_options self) "keep_temp")
   then cleanup parser else mret tt);;
  emit (update_progress 100 "处理完成");;
  r ← get_results;
  emit (finished r).

Definition WorkerThread_run (self : WorkerThread) : M unit :=
  try_except
    (parser ← PDFParser_init (wt_pdf_path self);
     run_ocr self parser;;
     run_after_ocr self parser)
    (λ e,
       logger ERROR ("处理过程中出现错误: " +:+ exn_msg e);;
       emit (error (exn_msg e))).
End gui.

(** ** Sessions and the state of their scratch directory *)

(** [s] is the object some call of the constructor returned. *)
Definition constructed (s : PDFParser) : Prop :=
  ∃ p w w', PDFParser_init p w = (Return s, w').

(** A directory that holds regular files and at most one subdirectory,
    [images]: it exists, no other directory is inside it, and [images] is
    not a regular file.  The scratch directory is like this from the
    constructor on, as long as [cleanup] has not run; the front ends need
    the same of the destination directory. *)
Definition dir_inv (d : path) (m : gmap path node) : Prop :=
  m !! d = Some Dir
  ∧ map_Forall (λ p n, d `prefix_of` p → n = Dir → p = d ∨ p = d // "images") m
  ∧ is_file m (d // "images") = false.

#[global] Instance dir_inv_dec d m : Decision (dir_inv d m).
Proof. unfold dir_inv. apply _. Defined.

Definition scratch_inv (s : PDFParser) (m : gmap path node) : Prop :=
  dir_inv (temp_dir s) m.

#[global] Instance scratch_inv_dec s m : Decision (scratch_inv s m).
Proof. unfold scratch_inv. apply _. Defined.

(** A statement that cannot let an exception escape. *)
Definition no_raise {A} (m : M A) : Prop := ∀ w, ∃ a w', m w = (Return a, w').

(** ** The extraction operations as values

    Used to run a list of operations in a given order. *)

Inductive operation := Ocr | Text | Images | Tables | Structured.

#[global] Instance operation_eq_dec : EqDecision operation.
Proof. solve_decision. Defined.

Inductive retval :=
  | RPath (p : path)
  | RText (t : string)
  | ROptPath (p : option path)
  | RElements (l : list element).

Definition run_op `{L : Libs} (o : operation) (s : PDFParser) : M retval :=
  match o with
  | Ocr => p ← perform_ocr s; mret (RPath p)
  | Text => t ← extract_text_with_pdfminer s; mret (RText t)
  | Images => d ← extract_images s; mret (ROptPath d)
  | Tables => x ← extract_tables s; mret (ROptPath x)
  | Structured => l ← extract_structured_content s; mret (RElements l)
  end.

(** Runs the operations in order and keeps each return value. *)
Fixpoint run_ops `{L : Libs} (l : list operation) (s : PDFParser)
    : M (list (operation * retval)) :=
  match l with
  | [] => mret []
  | o :: l' => r ← run_op o s; rs ← run_ops l' s; mret ((o, r) :: rs)
  end.

(** ** Summaries of the operations

    What each operation returns, writes and logs, as functions of what
    [stat] answers for the source path.  The proofs show that, on a scratch
    directory satisfying [scratch_inv], the operations do exactly this. *)

Definition insert_all (kvs : list (path * node)) (m : gmap path node)
    : gmap path node :=
  foldl (λ m kv, <[kv.1 := kv.2]> m) m kvs.

Definition result_bind {A B} (r : result A) (f : A → result B) : result B :=
  match r with
  | Return a => f a
  | Raise e => Raise e
  end.

(** All images of a document in extraction order, with the page number
    and the index within the page (both from 0). *)
Fixpoint all_images_from (page_num : nat) (pages : list (list Z))
    : list (nat * nat * Z) :=
  match pages with
  | [] => []
  | image_list :: pages' =>
      ((λ ix : nat * Z, (page_num, ix.1, ix.2)) <$> enumerate 0 image_list)
        ++ all_images_from (S page_num) pages'
  end.

Definition all_images (doc : document) : list (nat * nat * Z) :=
  all_images_from 0 (doc_pages doc).

(** The body of the image loop, for the flattened list of images. *)
Definition flat_body `{L : Libs} (d : path) (doc : document) (cnt : nat)
    (pix : nat * nat * Z) : M nat :=
  extract_images_image d doc pix.1.1 cnt (pix.1.2, pix.2).

(** An image file after [extract_images]: name, content, and the error of
    [gm] if it failed on this file. *)
Record image_file := ImageFile {
  if_name : string;
  if_content : bytes;
  if_gm_error : option exn
}.

Section summary.
Context `{L : Libs} (s : PDFParser) (src : option node).

Definition images_dir : path := temp_dir s // "images".
Definition excel_path : path :=
  temp_dir s // ("tables_" +:+ path_stem (pdf_path s) +:+ ".xlsx").

Definition src_read : result bytes :=
  match src with
  | Some (File b) => Return b
  | Some Dir => Raise (Exn IsADirectoryError (msg_of (pdf_path s)))
  | None => Raise (Exn FileNotFoundError (msg_of (pdf_path s)))
  end.

Definition ocr_result : result bytes :=
  result_bind src_read
    (ocrmypdf_ocr (OcrOptions "chi_sim+eng" true false false)).

Definition text_result : result string :=
  result_bind src_read pdfminer_extract_text.

Definition doc_result : result document := result_bind src_read fitz_open.

Definition tables_result : result (list table) :=
  result_bind src_read (tabula_read_pdf "all" true true).

Definition elements_result : result (list element) :=
  result_bind src_read (partition_pdf "fast").

(** The files the image loop writes before it ends or an
    [extract_image] raises, and that exception. *)
Fixpoint image_plan (doc : document) (l : list (nat * nat * Z))
    : list image_file * option exn :=
  match l with
  | [] => ([], None)
  | (page_num, img_index, xref) :: l' =>
      match doc_extract_image doc xref with
      | Raise e => ([], Some e)
      | Return bi =>
          let r := gm_convert ["-strip"; "-quality"; "85"] (image bi) in
          let rest := image_plan doc l' in
          (ImageFile (image_name page_num img_index (ext bi)) r.1 r.2
             :: rest.1, rest.2)
      end
  end.

Definition images_plan : list image_file * option exn :=
  match doc_result with
  | Return doc => image_plan doc (all_images doc)
  | Raise e => ([], Some e)
  end.

Definition sheets_of (tables : list table) : list (string * table) :=
  (λ it : nat * table, (sheet_name it.1, it.2)) <$> enumerate 1 tables.

Definition gm_warnings (files : list image_file) : list log_record :=
  omap (λ f, (λ e, (WARNING, "图片优化失败: " +:+ exn_msg e)) <$> if_gm_error f)
       files.

Definition op_return (o : operation) : retval :=
  match o with
  | Ocr =>
      RPath (match ocr_result with
             | Return _ => ocr_path s
             | Raise _ => pdf_path s
             end)
  | Text =>
      RText (match text_result with Return t => t | Raise _ => "" end)
  | Images =>
      ROptPath (match images_plan.2 with
                | None => Some images_dir
                | Some _ => None
                end)
  | Tables =>
      ROptPath (match tables_result with
                | Return (_ :: _) => Some excel_path
                | _ => None
                end)
  | Structured =>
      RElements (match elements_result with Return l => l | Raise _ => [] end)
  end.

Definition op_writes (o : operation) : list (path * node) :=
  match o with
  | Ocr =>
      match ocr_result with
      | Return out => [(ocr_path s, File out)]
      | Raise _ => []
      end
  | Images =>
      (images_dir, Dir)
        :: ((λ f, (images_dir // if_name f, File (if_content f)))
              <$> images_plan.1)
  | Tables =>
      match tables_result with
      | Return (t :: ts) =>
          [(excel_path, File (xlsx_of_sheets (sheets_of (t :: ts))))]
      | _ => []
      end
  | Text | Structured => []
  end.

Definition op_logs (o : operation) : list log_record :=
  match o with
  | Ocr =>
      [(INFO, "开始执行 OCR 处理...");
       match ocr_result with
       | Return _ => (INFO, "OCR 处理完成")
       | Raise e => (ERROR, "OCR 处理失败: " +:+ exn_msg e)
       end]
  | Text =>
      (INFO, "使用 PDFMiner 提取文本...")
        :: match text_result with
           | Return _ => []
           | Raise e => [(ERROR, "文本提取失败: " +:+ exn_msg e)]
           end
  | Images =>
      (INFO, "开始提取图片...")
        :: gm_warnings images_plan.1
        ++ [match images_plan.2 with
            | None =>
                (INFO, "成功提取 " +:+ pretty (List.length images_plan.1)
                       +:+ " 张图片到 " +:+ msg_of images_dir)
            | Some e => (ERROR, "图片提取失败: " +:+ exn_msg e)
            end]
  | Tables =>
      (INFO, "开始提取表格...")
        :: match tables_result with
           | Return (t :: ts) =>
               [(INFO, "成功提取 " +:+ pretty (List.length (t :: ts))
                       +:+ " 个表格到 " +:+ msg_of excel_path)]
           | Return [] => []
           | Raise e => [(ERROR, "表格提取失败: " +:+ exn_msg e)]
           end
  | Structured =>
      (INFO, "开始提取结构化内容...")
        :: match elements_result with
           | Return _ => []
           | Raise e => [(ERROR, "结构化内容提取失败: " +:+ exn_msg e)]
           end
  end.
End summary.

(** ** Notions used in the statements and proofs *)

(** The paths an operation may write. *)
Definition op_key (o : operation) (s : PDFParser) (k : path) : Prop :=
  match o with
  | Ocr => k = ocr_path s
  | Images => images_dir s `prefix_of` k
  | Tables => k = excel_path s
  | Text | Structured => False
  end.

(** The file system after running the operations of [l] in order. *)
Definition ops_fs `{L : Libs} (s : PDFParser) (src : option node)
    (l : list operation) (m : gmap path node) : gmap path node :=
  foldl (λ m o, insert_all (op_writes s src o) m) m l.

(** Decimal digits, to tell the numbers in a file name from the rest. *)
Definition is_digit (c : ascii) : bool :=
  Nat.leb 48 (nat_of_ascii c) && Nat.leb (nat_of_ascii c) 57.

Fixpoint digits_only (s : string) : bool :=
  match s with
  | EmptyString => true
  | String c s' => is_digit c && digits_only s'
  end.

(** What [extract_images] makes of one listed image: the file named after
    page and index, holding what [gm] left of the extracted bytes. *)
Definition image_file_of `{L : Libs} (doc : document) (pix : nat * nat * Z)
    (f : image_file) : Prop :=
  ∃ bi, doc_extract_image doc pix.2 = Return bi
      ∧ f = ImageFile (image_name pix.1.1 pix.1.2 (ext bi))
              (gm_convert ["-strip"; "-quality"; "85"] (image bi)).1
              (gm_convert ["-strip"; "-quality"; "85"] (image bi)).2.

(** A statement that changes no entry of the file system outside [P],
    however it ends. *)
Definition modifies {A} (P : path → Prop) (m : M A) : Prop :=
  ∀ w r w', m w = (r, w') → ∀ p, ¬ P p → fs w' !! p = fs w !! p.

(** A statement that only appends to the log. *)
Definition extends_log {A} (m : M A) : Prop :=
  ∀ w r w', m w = (r, w') → log w `prefix_of` log w'.

(** The paths the front ends may change after their OCR block: the
    scratch directory, the text file, the [images] directory with what is
    above and below it, and the workbook named [tn]. *)
Definition rest_footprint (td out : path) (tn : string) (p : path) : Prop :=
  td `prefix_of` p
  ∨ p = out // "extracted_text.txt"
  ∨ p `prefix_of` out // "images"
  ∨ out // "images" `prefix_of` p
  ∨ out // tn `prefix_of` p.

(** The destination directory while a session with scratch directory [td]
    is alive: like [dir_inv], except that directories of the scratch tree
    may lie inside it (when the destination is the system temporary
    directory itself). *)
Definition dest_inv (out td : path) (m : gmap path node) : Prop :=
  stat m out = Some Dir
  ∧ map_Forall (λ p n, out `prefix_of` p → n = Dir →
                       p = out ∨ p = out // "images" ∨ td `prefix_of` p) m
  ∧ is_file m (out // "images") = false.

(** The state [cli.main] keeps between its blocks. *)
Definition front_inv (s : PDFParser) (out : path) (m : gmap path node) : Prop :=
  scratch_inv s m ∧ dest_inv out (temp_dir s) m ∧ is_file m (pdf_path s) = true.

(** Between [w] and [w'] the log grew, and the record [r] is among the new
    entries. *)
Definition log_adds (w w' : world) (r : log_record) : Prop :=
  ∃ l, log w' = log w ++ l ∧ r ∈ l.

(** ** A concrete world and concrete libraries, for examples *)

Definition demo_src : path := ["home"; "a.pdf"].

Definition demo_world : world :=
  World {[ ["home"] := Dir; demo_src := File "%PDF-1.4 scan"; ["tmp"] := Dir ]}
        [] ["home"] (Worker [] ∅).

(** A three-page document with two images on the first page, none on the
    second and one on the third. *)
Definition demo_doc : document :=
  Document [[7%Z; 9%Z]; []; [7%Z]]
           (λ x, Return (BaseImage ("img" +:+ pretty x) "png")).

(** Libraries that all succeed. *)
Definition demo_libs : Libs := {|
  ocrmypdf_ocr := λ _ b, Return ("OCR " +:+ b);
  pdfminer_extract_text := λ b, Return ("text of " +:+ b);
  fitz_open := λ _, Return demo_doc;
  gm_convert := λ _ b, ("gm " +:+ b, None);
  tabula_read_pdf := λ _ _ _ _, Return [[["a"; "b"]]; [["c"]]];
  xlsx_of_sheets := λ l, String.concat ";" (l.*1);
  partition_pdf := λ _ _, Return [("Title", "Sample")]
|}.

(** The same, with an OCR engine that always fails. *)
Definition demo_libs_ocr_fails : Libs := {|
  ocrmypdf_ocr := λ _ _, Raise (Exn LibraryError "tesseract not found");
  pdfminer_extract_text := @pdfminer_extract_text demo_libs;
  fitz_open := @fitz_open demo_libs;
  gm_convert := @gm_convert demo_libs;
  tabula_read_pdf := @tabula_read_pdf demo_libs;
  xlsx_of_sheets := @xlsx_of_sheets demo_libs;
  partition_pdf := @partition_pdf demo_libs
|}.

(** The same, with a [gm] that fails on every image and leaves the file as
    it was. *)
Definition demo_libs_gm_fails : Libs := {|
  ocrmypdf_ocr := @ocrmypdf_ocr demo_libs;
  pdfminer_extract_text := @pdfminer_extract_text demo_libs;
  fitz_open := @fitz_open demo_libs;
  gm_convert := λ _ b, (b, Some (Exn CalledProcessError "gm: exit status 1"));
  tabula_read_pdf := @tabula_read_pdf demo_libs;
  xlsx_of_sheets := @xlsx_of_sheets demo_libs;
  partition_pdf := @partition_pdf demo_libs
|}.

(** The session the constructor returns in [demo_world], and the world
    it leaves. *)
Definition demo_session : PDFParser :=
  mkPDFParser demo_src ["tmp"; "tmp0"] ["tmp"; "tmp0"; "ocr_a.pdf"].
Definition demo_world1 : world :=
  set_fs (<[ ["tmp"; "tmp0"] := Dir ]> (fs demo_world)) demo_world.

(** Front-end inputs for the examples: the command line [-i /home/a.pdf]
    with no other option, and a GUI worker asked for OCR only. *)
Definition demo_args : Args :=
  mkArgs demo_src None false false false false false false false.
Definition demo_out : path := ["home"; "pdf_output"].
Definition demo_world0 : world :=
  set_fs (<[demo_out := Dir]> (fs demo_world)) demo_world.
Definition demo_worker : WorkerThread :=
  mkWorkerThread demo_src ["home"] {[ "ocr" := true ]}.

(** * Proofs *)

(** ** Paths *)

Lemma stat_snoc (m : gmap path node) p n : stat m (p // n) = m !! (p // n).
Proof. unfold truediv. by destruct p. Qed.

Lemma stat_lookup (m : gmap path node) p x : m !! p = Some x → p ≠ [] → stat m p = Some x.
Proof. by destruct p. Qed.

Lemma parent_snoc p n : path_parent (p // n) = p.
Proof. apply removelast_last. Qed.

Lemma name_snoc p n : path_name (p // n) = n.
Proof. apply last_last. Qed.

Lemma snoc_inj p q (a b : string) : p // a = q // b → p = q ∧ a = b.
Proof. intros H. by apply app_inj_tail in H. Qed.

Lemma snoc_ne_nil p (n : string) : p // n ≠ [].
Proof. unfold truediv. by destruct p. Qed.

Lemma prefix_snoc_self p (n : string) : p `prefix_of` p // n.
Proof. by exists [n]. Qed.

(** A prefix of [q // n] is [q // n] itself or a prefix of [q]. *)
Lemma prefix_snoc_inv (p q : path) (n : string) :
  p `prefix_of` q // n → p = q // n ∨ p `prefix_of` q.
Proof.
  intros [k Hk]. unfold truediv in *.
  destruct (decide (k = [])) as [->|Hne].
  - left. by rewrite app_nil_r in Hk.
  - right. destruct (exists_last Hne) as (k' & x & ->).
    rewrite app_assoc in Hk. apply app_inj_tail in Hk as [-> _].
    by exists k'.
Qed.

(** ** Running statements *)

Lemma bind_Return {A B} (m : M A) (f : A → M B) w a w' :
  m w = (Return a, w') → (m ≫= f) w = f a w'.
Proof. unfold mbind, M_bind. by intros ->. Qed.

Lemma bind_Raise {A B} (m : M A) (f : A → M B) w e w' :
  m w = (Raise e, w') → (m ≫= f) w = (Raise e, w').
Proof. unfold mbind, M_bind. by intros ->. Qed.

Lemma try_Return {A} (m : M A) h w a w' :
  m w = (Return a, w') → try_except m h w = (Return a, w').
Proof. unfold try_except. by intros ->. Qed.

Lemma try_Raise {A} (m : M A) h w e w' :
  m w = (Raise e, w') → try_except m h w = h e w'.
Proof. unfold try_except. by intros ->. Qed.

Ltac munfold :=
  unfold mbind, M_bind, mret, M_ret, raise, try_except, lift, get_fs,
    put_fs, logger in *.

Lemma no_raise_ret {A} (a : A) : no_raise (mret a).
Proof. intros w. by exists a, w. Qed.

Lemma no_raise_logger l s : no_raise (logger l s).
Proof. intros w. by eexists _, _. Qed.

Lemma no_raise_bind {A B} (m : M A) (f : A → M B) :
  no_raise m → (∀ a, no_raise (f a)) → no_raise (m ≫= f).
Proof.
  intros Hm Hf w. destruct (Hm w) as (a & w1 & E).
  destruct (Hf a w1) as (b & w2 & E2). exists b, w2.
  by rewrite (bind_Return _ _ _ _ _ E).
Qed.

Lemma no_raise_try {A} (m : M A) h :
  (∀ e, no_raise (h e)) → no_raise (try_except m h).
Proof.
  intros Hh w. unfold try_except. destruct (m w) as [[a|e] w1].
  - by exists a, w1.
  - apply Hh.
Qed.

Create HintDb no_raise.
#[local] Hint Resolve no_raise_ret no_raise_logger : no_raise.
#[local] Hint Extern 2 (no_raise (_ ≫= _)) =>
  apply no_raise_bind; [|intros ?] : no_raise.
#[local] Hint Extern 1 (no_raise (try_except _ _)) =>
  apply no_raise_try; intros ? : no_raise.

Section parser_no_raise.
Context `{L : Libs}.

Lemma perform_ocr_no_raise s : no_raise (perform_ocr s).
Proof. unfold perform_ocr. auto with no_raise. Qed.

Lemma extract_text_no_raise s : no_raise (extract_text_with_pdfminer s).
Proof. unfold extract_text_with_pdfminer. auto with no_raise. Qed.

Lemma extract_tables_no_raise s : no_raise (extract_tables s).
Proof. unfold extract_tables. auto with no_raise. Qed.

Lemma extract_structured_no_raise s : no_raise (extract_structured_content s).
Proof. unfold extract_structured_content. auto with no_raise. Qed.

Lemma cleanup_no_raise s : no_raise (cleanup s).
Proof. unfold cleanup. auto with no_raise. Qed.

Lemma _optimize_image_no_raise p : no_raise (_optimize_image p).
Proof. unfold _optimize_image. auto with no_raise. Qed.
End parser_no_raise.

(** ** File-system primitives *)

Lemma read_file_ok w p b :
  stat (fs w) p = Some (File b) → read_file p w = (Return b, w).
Proof. intros H. unfold read_file. munfold. by rewrite H. Qed.

Lemma read_file_inv w p r w' :
  read_file p w = (r, w') →
  w' = w ∧ (∀ b, r = Return b → stat (fs w) p = Some (File b)).
Proof.
  unfold read_file. munfold. intros H.
  destruct (stat (fs w) p) as [[|b]|]; simplify_eq; split; auto; congruence.
Qed.

Lemma set_fs_id w : set_fs (fs w) w = w.
Proof. by destruct w. Qed.

Lemma write_file_ok w p b :
  stat (fs w) (path_parent p) = Some Dir → stat (fs w) p ≠ Some Dir →
  write_file p b w = (Return tt, set_fs (<[p := File b]> (fs w)) w).
Proof.
  intros Hp Ht. unfold write_file. munfold. rewrite Hp.
  by destruct (stat (fs w) p) as [[|?]|].
Qed.

Lemma write_file_inv w p b r w' :
  write_file p b w = (r, w') →
  (r = Return tt ∧ w' = set_fs (<[p := File b]> (fs w)) w
   ∧ stat (fs w) (path_parent p) = Some Dir ∧ stat (fs w) p ≠ Some Dir)
  ∨ (∃ e, r = Raise e ∧ w' = w).
Proof.
  unfold write_file. munfold. intros H.
  destruct (stat (fs w) (path_parent p)) as [[|?]|]; simplify_eq; eauto.
  destruct (stat (fs w) p) as [[|?]|] eqn:E; simplify_eq; eauto;
    left; repeat split; congruence.
Qed.

Lemma rmtree_ok w d :
  stat (fs w) d = Some Dir →
  rmtree d w = (Return tt, set_fs (filter (λ kv, ¬ d `prefix_of` kv.1) (fs w)) w).
Proof. intros H. unfold rmtree. munfold. by rewrite H. Qed.

Lemma rmtree_missing w d :
  stat (fs w) d = None →
  rmtree d w = (Raise (Exn FileNotFoundError (msg_of d)), w).
Proof. intros H. unfold rmtree. munfold. by rewrite H. Qed.

Lemma lookup_rmtree (m : gmap path node) d k :
  filter (λ kv : path * node, ¬ d `prefix_of` kv.1) m !! k
  = if decide (d `prefix_of` k) then None else m !! k.
Proof.
  rewrite map_lookup_filter. destruct (m !! k) as [x|] eqn:E; simpl.
  - case_decide; [by rewrite option_guard_False by tauto|].
    by rewrite option_guard_True.
  - by case_decide.
Qed.

(** ** [mkdtemp] *)

Lemma first_below_spec d k (c : string) :
  d // c `prefix_of` k ↔ first_below d k = Some c.
Proof.
  unfold first_below, truediv. split.
  - intros [k' ->]. rewrite <-app_assoc. rewrite decide_True by by eexists.
    by rewrite drop_app_length.
  - case_decide as Hp; [|done]. destruct Hp as [k' ->].
    rewrite drop_app_length. destruct k' as [|x k']; intros [=]; subst.
    exists k'. by rewrite <-app_assoc.
Qed.

Lemma used_names_spec (m : gmap path node) d c :
  c ∈ used_names m d ↔ ∃ k, is_Some (m !! k) ∧ d // c `prefix_of` k.
Proof.
  unfold used_names. rewrite list_elem_of_omap. split.
  - intros (k & Hk & Hc). exists k. split; [|by apply first_below_spec].
    apply list_elem_of_fmap in Hk as ([k' x] & -> & Hk).
    apply elem_of_map_to_list in Hk. by exists x.
  - intros (k & [x Hx] & Hp). exists k. split; [|by apply first_below_spec].
    apply list_elem_of_fmap. exists (k, x). split; [done|].
    by apply elem_of_map_to_list.
Qed.

#[global] Instance tmp_name_inj : Inj (=) (=) tmp_name.
Proof.
  intros i j H. unfold tmp_name in H.
  change ("tmp" +:+ pretty i) with (String "t" (String "m" (String "p" (pretty i)))) in H.
  change ("tmp" +:+ pretty j) with (String "t" (String "m" (String "p" (pretty j)))) in H.
  injection H as H. by apply (inj pretty) in H.
Qed.

(** [mkdtemp] always finds a name, and the directory it creates is new:
    nothing was at or below it. *)
Lemma mkdtemp_spec w :
  ∃ i, mkdtemp w
       = (Return (gettempdir // tmp_name i),
          set_fs (<[gettempdir // tmp_name i := Dir]> (fs w)) w)
     ∧ ∀ k, gettempdir // tmp_name i `prefix_of` k → fs w !! k = None.
Proof.
  unfold mkdtemp. munfold.
  set (used := used_names (fs w) gettempdir).
  destruct (list_find _ _) as [[j c]|] eqn:E.
  - apply list_find_Some in E as (Hj & Hc & _).
    apply list_lookup_fmap_Some in Hj as (i & -> & _).
    exists i. split; [done|]. intros k Hk.
    destruct (fs w !! k) eqn:Ek; [|done]. destruct Hc.
    apply used_names_spec. eauto.
  - exfalso. apply list_find_None in E.
    assert (tmp_name <$> seq 0 (S (List.length used)) ⊆+ used) as Hsub.
    { apply NoDup_submseteq.
      - apply (NoDup_fmap_2 _), NoDup_seq.
      - intros c Hc. rewrite Forall_forall in E.
        destruct (decide (c ∈ used)); [done|]. by destruct (E c Hc). }
    apply submseteq_length in Hsub.
    rewrite length_fmap, length_seq in Hsub. lia.
Qed.

(** ** The constructor *)

Lemma exists_false_stat m p : exists_ m p = false ↔ stat m p = None.
Proof. unfold exists_. destruct (stat m p); naive_solver. Qed.

Lemma PDFParser_init_missing p w :
  exists_ (fs w) p = false →
  PDFParser_init p w
  = (Raise (Exn FileNotFoundError ("PDF文件不存在: " +:+ msg_of p)), w).
Proof. intros H. unfold PDFParser_init. munfold. by rewrite H. Qed.

Lemma PDFParser_init_ok p w :
  exists_ (fs w) p = true →
  ∃ i, let d := gettempdir // tmp_name i in
    PDFParser_init p w
    = (Return (mkPDFParser p d (d // ("ocr_" +:+ path_name p))),
       set_fs (<[d := Dir]> (fs w)) w)
    ∧ ∀ k, d `prefix_of` k → fs w !! k = None.
Proof.
  intros H. destruct (mkdtemp_spec w) as (i & E & Hfresh).
  exists i. split; [|done].
  unfold PDFParser_init. munfold. rewrite H. simpl.
  by rewrite E.
Qed.

Lemma PDFParser_init_inv p w s w' :
  PDFParser_init p w = (Return s, w') →
  exists_ (fs w) p = true
  ∧ ∃ i, s = mkPDFParser p (gettempdir // tmp_name i)
                 (gettempdir // tmp_name i // ("ocr_" +:+ path_name p))
       ∧ w' = set_fs (<[gettempdir // tmp_name i := Dir]> (fs w)) w
       ∧ ∀ k, gettempdir // tmp_name i `prefix_of` k → fs w !! k = None.
Proof.
  intros E. destruct (exists_ (fs w) p) eqn:Hex.
  - split; [done|]. destruct (PDFParser_init_ok p w Hex) as (i & E' & Hf).
    exists i. simpl in E'. rewrite E' in E. by simplify_eq.
  - by rewrite PDFParser_init_missing in E.
Qed.

(** What every constructed session satisfies. *)
Lemma constructed_inv s :
  constructed s →
  ∃ i, temp_dir s = gettempdir // tmp_name i
     ∧ ocr_path s = temp_dir s // ("ocr_" +:+ path_name (pdf_path s))
     ∧ ¬ temp_dir s `prefix_of` pdf_path s.
Proof.
  intros (p & w & w' & E).
  apply PDFParser_init_inv in E as (Hex & i & -> & _ & Hfresh).
  exists i. repeat split; simpl. intros Hp.
  specialize (Hfresh _ Hp). unfold exists_ in Hex.
  destruct p; [by destruct Hp as [? ?]; destruct gettempdir|].
  simpl in Hex. by rewrite Hfresh in Hex.
Qed.

Example demo_init : PDFParser_init demo_src demo_world = (Return demo_session, demo_world1).
Proof. vm_compute. reflexivity. Qed.

Lemma demo_constructed : constructed demo_session.
Proof. exists demo_src, demo_world, demo_world1. apply demo_init. Qed.

(** C2: a source path that does not exist makes the constructor raise
    [FileNotFoundError] and leaves the world as it was (no scratch directory
    is created); a source path that exists makes the constructor return a
    session whose scratch directory was not there before, had nothing below
    it, and is the only change to the file system. *)
Theorem C2_constructor (p : path) (w : world) :
  (exists_ (fs w) p = false →
     ∃ e, PDFParser_init p w = (Raise e, w) ∧ exn_cls e = FileNotFoundError)
  ∧ (exists_ (fs w) p = true →
     ∃ s, PDFParser_init p w
          = (Return s, set_fs (<[temp_dir s := Dir]> (fs w)) w)
        ∧ pdf_path s = p
        ∧ stat (fs w) (temp_dir s) = None
        ∧ (∀ k, temp_dir s `prefix_of` k → fs w !! k = None)).
Proof.
  split; intros H.
  - eexists. split; [by apply PDFParser_init_missing|done].
  - destruct (PDFParser_init_ok p w H) as (i & E & Hfresh).
    cbv zeta in E, Hfresh.
    eexists. split; [exact E|]. cbn [temp_dir pdf_path].
    repeat split; [|done]. rewrite stat_snoc. by apply Hfresh.
Qed.

Lemma C2_constructor_witness :
  (∃ e, PDFParser_init ["home"; "missing.pdf"] demo_world = (Raise e, demo_world)
        ∧ exn_cls e = FileNotFoundError)
  ∧ (∃ s, PDFParser_init demo_src demo_world
          = (Return s, set_fs (<[temp_dir s := Dir]> (fs demo_world)) demo_world)
        ∧ pdf_path s = demo_src
        ∧ stat (fs demo_world) (temp_dir s) = None
        ∧ (∀ k, temp_dir s `prefix_of` k → fs demo_world !! k = None)).
Proof.
  split.
  - apply (C2_constructor ["home"; "missing.pdf"] demo_world). vm_compute. reflexivity.
  - apply (C2_constructor demo_src demo_world). vm_compute. reflexivity.
Defined.

(** ** [cleanup] *)

Lemma cleanup_removes (s : PDFParser) (w : world) :
  constructed s → is_dir (fs w) (temp_dir s) = true →
  ∃ w1, cleanup s w = (Return tt, w1)
    ∧ ∀ k, fs w1 !! k = if decide (temp_dir s `prefix_of` k) then None
                        else fs w !! k.
Proof.
  intros Hc Hd.
  assert (stat (fs w) (temp_dir s) = Some Dir) as Hs.
  { unfold is_dir in Hd. by destruct (stat _ _) as [[|?]|]. }
  eexists. split.
  - unfold cleanup. erewrite try_Return; [done|].
    erewrite bind_Return by by apply rmtree_ok. done.
  - intros k. simpl. apply lookup_rmtree.
Qed.

(** C9: on a constructed session whose scratch directory exists, the first
    [cleanup] removes the directory and everything below it and logs
    success; the second finds nothing, logs the failure and returns.  In
    every world [cleanup] returns, and when [rmtree] raised, the error is in
    the log. *)
Theorem C9_cleanup_twice (s : PDFParser) (w : world) :
  constructed s →
  is_dir (fs w) (temp_dir s) = true →
  (∃ w1 w2 e,
      cleanup s w = (Return tt, w1)
      ∧ (∀ k, fs w1 !! k = if decide (temp_dir s `prefix_of` k) then None
                           else fs w !! k)
      ∧ log w1 = log w ++ [(INFO, "临时文件清理完成")]
      ∧ cleanup s w1 = (Return tt, w2)
      ∧ fs w2 = fs w1
      ∧ log w2 = log w1 ++ [(ERROR, "临时文件清理失败: " +:+ exn_msg e)])
  ∧ (∀ w', ∃ w'', cleanup s w' = (Return tt, w'')
        ∧ ∀ e w3, rmtree (temp_dir s) w' = (Raise e, w3) →
            fs w'' = fs w'
            ∧ log w'' = log w' ++ [(ERROR, "临时文件清理失败: " +:+ exn_msg e)]).
Proof.
  intros Hc Hd. destruct (constructed_inv s Hc) as (i & Ht & _ & _).
  assert (stat (fs w) (temp_dir s) = Some Dir) as Hs.
  { unfold is_dir in Hd. by destruct (stat _ _) as [[|?]|]. }
  split.
  - pose proof (rmtree_ok w _ Hs) as E1.
    set (wa := set_fs _ w) in E1.
    set (wb := add_log (INFO, "临时文件清理完成") wa).
    assert (stat (fs wb) (temp_dir s) = None) as Hgone.
    { rewrite Ht, stat_snoc, <-Ht. subst wa wb. simpl.
      rewrite lookup_rmtree. by rewrite decide_True. }
    pose proof (rmtree_missing wb _ Hgone) as E2.
    exists wb. eexists _, _. split_and!.
    + unfold cleanup. erewrite try_Return; [done|].
      erewrite bind_Return by exact E1. done.
    + intros k. simpl. apply lookup_rmtree.
    + done.
    + unfold cleanup. erewrite try_Raise; [done|].
      erewrite bind_Raise by exact E2. done.
    + done.
    + done.
  - intros w'. unfold cleanup, try_except.
    destruct ((rmtree (temp_dir s);; logger INFO "临时文件清理完成") w')
      as [[[]|e] w''] eqn:E.
    + eexists. split; [done|]. intros e w3 E3.
      by rewrite (bind_Raise _ _ _ _ _ E3) in E.
    + eexists. split; [done|]. intros e' w3 E3.
      rewrite (bind_Raise _ _ _ _ _ E3) in E. simplify_eq.
      unfold rmtree in E3. munfold.
      destruct (stat (fs w') (temp_dir s)) as [[|?]|]; by simplify_eq.
Qed.

Lemma C9_cleanup_twice_witness :
  (∃ w1 w2 e,
      cleanup demo_session demo_world1 = (Return tt, w1)
      ∧ (∀ k, fs w1 !! k = if decide (temp_dir demo_session `prefix_of` k) then None
                           else fs demo_world1 !! k)
      ∧ log w1 = log demo_world1 ++ [(INFO, "临时文件清理完成")]
      ∧ cleanup demo_session w1 = (Return tt, w2)
      ∧ fs w2 = fs w1
      ∧ log w2 = log w1 ++ [(ERROR, "临时文件清理失败: " +:+ exn_msg e)]).
Proof.
  apply (C9_cleanup_twice demo_session demo_world1).
  - exists demo_src, demo_world, demo_world1. vm_compute. reflexivity.
  - vm_compute. reflexivity.
Defined.

(** ** [perform_ocr] *)

Lemma ocrmypdf_ocr_call_inv `{L : Libs} i o opts w r w' :
  ocrmypdf_ocr_call i o opts w = (r, w') →
  (∃ b out, r = Return tt
     ∧ stat (fs w) i = Some (File b) ∧ ocrmypdf_ocr opts b = Return out
     ∧ w' = set_fs (<[o := File out]> (fs w)) w
     ∧ stat (fs w) (path_parent o) = Some Dir ∧ stat (fs w) o ≠ Some Dir)
  ∨ (∃ e, r = Raise e ∧ w' = w).
Proof.
  unfold ocrmypdf_ocr_call, read_file, write_file. munfold. intros E.
  repeat case_match; simplify_eq; eauto;
    left; eexists _, _; split_and!; eauto; congruence.
Qed.

(** C5: whatever makes the underlying [ocrmypdf.ocr] call raise,
    [perform_ocr] logs the error and returns the original source path,
    leaving the file system untouched; when the call returns, [perform_ocr]
    returns [ocr_path], which lies inside the scratch directory and then
    holds what the OCR engine produced from the source. *)
Theorem C5_perform_ocr `{L : Libs} (s : PDFParser) (w : world) :
  constructed s →
  let o := OcrOptions "chi_sim+eng" true false false in
  let w0 := add_log (INFO, "开始执行 OCR 处理...") w in
  (∀ e w1, ocrmypdf_ocr_call (pdf_path s) (ocr_path s) o w0 = (Raise e, w1) →
     perform_ocr s w
     = (Return (pdf_path s), add_log (ERROR, "OCR 处理失败: " +:+ exn_msg e) w0))
  ∧ (∀ w1, ocrmypdf_ocr_call (pdf_path s) (ocr_path s) o w0 = (Return tt, w1) →
     perform_ocr s w = (Return (ocr_path s), add_log (INFO, "OCR 处理完成") w1)
     ∧ temp_dir s `prefix_of` ocr_path s ∧ ocr_path s ≠ temp_dir s
     ∧ ∃ b out, stat (fs w) (pdf_path s) = Some (File b)
         ∧ ocrmypdf_ocr o b = Return out
         ∧ fs w1 !! ocr_path s = Some (File out)).
Proof.
  intros Hc o w0. destruct (constructed_inv s Hc) as (i & Ht & Ho & Hp).
  split.
  - intros e w1 E.
    pose proof (ocrmypdf_ocr_call_inv _ _ _ _ _ _ E) as [(?&?&?&_)|(e'&?&->)];
      [done|].
    unfold perform_ocr. erewrite bind_Return by reflexivity.
    erewrite try_Raise; [done|].
    by erewrite bind_Raise by exact E.
  - intros w1 E. split_and!.
    + unfold perform_ocr. erewrite bind_Return by reflexivity.
      erewrite try_Return; [done|].
      by erewrite bind_Return by exact E.
    + rewrite Ho. apply prefix_snoc_self.
    + rewrite Ho. intros Heq. eapply (prefix_snoc_not (temp_dir s)).
      unfold truediv in Heq. by rewrite Heq.
    + apply ocrmypdf_ocr_call_inv in E as [(b&out&_&Hb&Hout&->&_)|(?&?&_)];
        [|done].
      exists b, out. split_and!; [done..|]. simpl. by rewrite lookup_insert_eq.
Qed.

Lemma C5_perform_ocr_witness :
  let o := OcrOptions "chi_sim+eng" true false false in
  let w0 := add_log (INFO, "开始执行 OCR 处理...") demo_world1 in
  (∀ e w1, @ocrmypdf_ocr_call demo_libs demo_src (ocr_path demo_session) o w0
           = (Raise e, w1) →
     @perform_ocr demo_libs demo_session demo_world1
     = (Return demo_src, add_log (ERROR, "OCR 处理失败: " +:+ exn_msg e) w0))
  ∧ (∀ w1, @ocrmypdf_ocr_call demo_libs demo_src (ocr_path demo_session) o w0
           = (Return tt, w1) →
     @perform_ocr demo_libs demo_session demo_world1
     = (Return (ocr_path demo_session), add_log (INFO, "OCR 处理完成") w1)
     ∧ temp_dir demo_session `prefix_of` ocr_path demo_session
     ∧ ocr_path demo_session ≠ temp_dir demo_session
     ∧ ∃ b out, stat (fs demo_world1) demo_src = Some (File b)
         ∧ @ocrmypdf_ocr demo_libs o b = Return out
         ∧ fs w1 !! ocr_path demo_session = Some (File out)).
Proof.
  apply (@C5_perform_ocr demo_libs demo_session demo_world1).
  exists demo_src, demo_world, demo_world1. vm_compute. reflexivity.
Defined.

(** ** [extract_images] outside its [try] block *)

(** [Path.mkdir(exist_ok=True)] without [parents] raises when the parent is
    missing. *)
Lemma Path_mkdir_parent_missing w p n e_ok :
  stat (fs w) p = None → fs w !! (p // n) = None →
  Path_mkdir false e_ok (p // n) w
  = (Raise (Exn FileNotFoundError (msg_of (p // n))), w).
Proof.
  intros Hp Hn. unfold Path_mkdir.
  destruct (List.length (p // n)); simpl; unfold try_except, os_mkdir; munfold;
    rewrite stat_snoc, Hn, parent_snoc, Hp; done.
Qed.

(** ** The directory invariant *)

Lemma dir_inv_parent d m n :
  dir_inv d m → stat m (path_parent (d // n)) = Some Dir.
Proof. intros (Ht & _ & _). rewrite parent_snoc. by destruct d. Qed.

Lemma dir_inv_stat d m : dir_inv d m → stat m d = Some Dir.
Proof. intros (Ht & _ & _). by destruct d. Qed.

Lemma dir_inv_dirs d m p :
  dir_inv d m → d `prefix_of` p → m !! p = Some Dir → p = d ∨ p = d // "images".
Proof. intros (_ & Hf & _) Hp Hm. by apply (Hf p Dir). Qed.

Lemma snoc_ne_self (d : path) (n : string) : d // n ≠ d.
Proof.
  intros H. apply (prefix_snoc_not d n). unfold truediv in H. by rewrite H.
Qed.

Lemma snoc_snoc_ne (d : path) (a b c : string) : d // a // b ≠ d // c.
Proof.
  intros H. apply (f_equal List.length) in H. unfold truediv in H.
  rewrite !length_app in H. simpl in H. lia.
Qed.

Lemma snoc_snoc_ne_self (d : path) (a b : string) : d // a // b ≠ d.
Proof.
  intros H. apply (f_equal List.length) in H. unfold truediv in H.
  rewrite !length_app in H. simpl in H. lia.
Qed.

Lemma dir_inv_file_not_dir d m n :
  dir_inv d m → n ≠ "images" → stat m (d // n) ≠ Some Dir.
Proof.
  intros Hi Hn. rewrite stat_snoc. intros Hm.
  apply (dir_inv_dirs d m) in Hm as [Hm|Hm]; [..|done|apply prefix_snoc_self].
  - by apply snoc_ne_self in Hm.
  - by apply snoc_inj in Hm as [_ ?].
Qed.

Lemma dir_inv_image_not_dir d m n :
  dir_inv d m → stat m (d // "images" // n) ≠ Some Dir.
Proof.
  intros Hi. rewrite stat_snoc. intros Hm.
  apply (dir_inv_dirs d m) in Hm as [Hm|Hm]; [..|done|].
  - by apply snoc_snoc_ne_self in Hm.
  - by apply snoc_ne_self in Hm.
  - etrans; apply prefix_snoc_self.
Qed.

(** Writing a regular file anywhere but at the directory or at its
    [images] keeps the invariant. *)
Lemma dir_inv_insert_file d m p b :
  dir_inv d m → p ≠ d → p ≠ d // "images" → dir_inv d (<[p := File b]> m).
Proof.
  intros (Ht & Hf & Hi) H1 H2. split_and!.
  - by rewrite lookup_insert_ne.
  - apply map_Forall_insert_2; [done|]. done.
  - unfold is_file in *. rewrite stat_snoc in *. by rewrite lookup_insert_ne.
Qed.

Lemma dir_inv_insert_images d m :
  dir_inv d m → dir_inv d (<[d // "images" := Dir]> m).
Proof.
  intros (Ht & Hf & Hi). split_and!.
  - rewrite lookup_insert_ne; [done|]. apply snoc_ne_self.
  - apply map_Forall_insert_2; [auto|done].
  - unfold is_file. by rewrite stat_snoc, lookup_insert_eq.
Qed.

(** Any change outside the directory keeps the invariant. *)
Lemma dir_inv_outside (d : path) (m m' : gmap path node) :
  dir_inv d m → (∀ p, d `prefix_of` p → m' !! p = m !! p) → dir_inv d m'.
Proof.
  intros (Ht & Hf & Hi) Hsame. split_and!.
  - by rewrite Hsame.
  - intros p n Hn Hp ->. rewrite Hsame in Hn by done. by apply (Hf p Dir).
  - unfold is_file in *. rewrite stat_snoc in *.
    rewrite Hsame; [done|]. apply prefix_snoc_self.
Qed.

Lemma scratch_inv_parent s m n :
  scratch_inv s m → stat m (path_parent (temp_dir s // n)) = Some Dir.
Proof. apply dir_inv_parent. Qed.

Lemma scratch_inv_file_not_dir s m n :
  scratch_inv s m → n ≠ "images" → stat m (temp_dir s // n) ≠ Some Dir.
Proof. apply dir_inv_file_not_dir. Qed.

Lemma scratch_inv_image_not_dir s m n :
  scratch_inv s m → stat m (temp_dir s // "images" // n) ≠ Some Dir.
Proof. apply dir_inv_image_not_dir. Qed.

Lemma scratch_inv_insert_file s m p b :
  scratch_inv s m → p ≠ temp_dir s → p ≠ temp_dir s // "images" →
  scratch_inv s (<[p := File b]> m).
Proof. apply dir_inv_insert_file. Qed.

Lemma scratch_inv_insert_images s m :
  scratch_inv s m → scratch_inv s (<[temp_dir s // "images" := Dir]> m).
Proof. apply dir_inv_insert_images. Qed.

Ltac wdone :=
  munfold; unfold add_log, set_fs; simpl;
  rewrite <-?app_assoc, ?app_nil_r; simpl; done.

Section op_specs.
Context `{L : Libs}.
Implicit Types (s : PDFParser) (w : world).

Lemma perform_ocr_spec s w :
  constructed s → scratch_inv s (fs w) →
  let src := stat (fs w) (pdf_path s) in
  run_op Ocr s w
  = (Return (op_return s src Ocr),
     World (insert_all (op_writes s src Ocr) (fs w))
           (log w ++ op_logs s src Ocr) (cwd w) (worker w)).
Proof.
  intros Hc Hi src. destruct (constructed_inv s Hc) as (i & Ht & Ho & Hp).
  pose proof (scratch_inv_parent s _ ("ocr_" +:+ path_name (pdf_path s)) Hi) as H1.
  assert (stat (fs w) (temp_dir s // ("ocr_" +:+ path_name (pdf_path s)))
          ≠ Some Dir) as H2 by by apply scratch_inv_file_not_dir.
  rewrite <-Ho in H1, H2.
  unfold run_op, perform_ocr, ocrmypdf_ocr_call, read_file, write_file.
  unfold op_return, op_writes, op_logs, ocr_result, src_read, result_bind.
  munfold. simpl. fold src.
  destruct src as [[|b]|]; simpl; try wdone.
  destruct (ocrmypdf_ocr _ b) as [out|e]; simpl; [|wdone].
  rewrite H1. destruct (stat (fs w) (ocr_path s)) as [[|?]|]; wdone.
Qed.

Lemma extract_text_spec s w :
  let src := stat (fs w) (pdf_path s) in
  run_op Text s w
  = (Return (op_return s src Text),
     World (fs w) (log w ++ op_logs s src Text) (cwd w) (worker w)).
Proof.
  intros src.
  unfold run_op, extract_text_with_pdfminer, read_file.
  unfold op_return, op_logs, text_result, src_read, result_bind.
  munfold. simpl. fold src.
  destruct src as [[|b]|]; simpl; try wdone.
  destruct (pdfminer_extract_text b); wdone.
Qed.

Lemma extract_structured_spec s w :
  let src := stat (fs w) (pdf_path s) in
  run_op Structured s w
  = (Return (op_return s src Structured),
     World (fs w) (log w ++ op_logs s src Structured) (cwd w) (worker w)).
Proof.
  intros src.
  unfold run_op, extract_structured_content, read_file.
  unfold op_return, op_logs, elements_result, src_read, result_bind.
  munfold. simpl. fold src.
  destruct src as [[|b]|]; simpl; try wdone.
  destruct (partition_pdf "fast" b); wdone.
Qed.

Lemma ExcelWriter_sheets tables start acc w :
  for_loop (enumerate start tables)
    (λ sheets '(i, t), mret (sheets ++ [(sheet_name i, t)])) acc w
  = (Return (acc ++ ((λ it : nat * table, (sheet_name it.1, it.2))
                       <$> enumerate start tables)), w).
Proof.
  revert start acc. induction tables as [|t ts IH]; intros start acc; simpl.
  - by rewrite app_nil_r.
  - munfold. rewrite IH. by rewrite <-app_assoc.
Qed.

Lemma extract_tables_spec s w :
  constructed s → scratch_inv s (fs w) →
  let src := stat (fs w) (pdf_path s) in
  run_op Tables s w
  = (Return (op_return s src Tables),
     World (insert_all (op_writes s src Tables) (fs w))
           (log w ++ op_logs s src Tables) (cwd w) (worker w)).
Proof.
  intros Hc Hi src.
  set (n := "tables_" +:+ path_stem (pdf_path s) +:+ ".xlsx").
  pose proof (scratch_inv_parent s _ n Hi) as H1.
  assert (stat (fs w) (temp_dir s // n) ≠ Some Dir) as H2
    by by apply scratch_inv_file_not_dir.
  unfold run_op, extract_tables, ExcelWriter, read_file.
  unfold op_return, op_writes, op_logs, tables_result, src_read,
    result_bind, excel_path.
  fold n. set (p := temp_dir s // n) in *. clearbody p.
  munfold. simpl. fold src.
  destruct src as [[|b]|]; simpl; try wdone.
  destruct (tabula_read_pdf _ _ _ b) as [[|t ts]|e]; simpl; try wdone.
  pose proof (ExcelWriter_sheets ts 2 [(sheet_name 1, t)]) as HS.
  munfold. rewrite HS. simpl.
  rewrite write_file_ok by done. wdone.
Qed.
End op_specs.

(** ** Loops *)

Lemma for_loop_app {A S} (l1 l2 : list A) (body : S → A → M S) acc w :
  for_loop (l1 ++ l2) body acc w
  = (acc' ← for_loop l1 body acc; for_loop l2 body acc') w.
Proof.
  revert acc w. induction l1 as [|x l1 IH]; intros acc w; simpl.
  - done.
  - munfold. destruct (body acc x w) as [[acc'|e] w']; [|done]. apply IH.
Qed.

Lemma for_loop_ext {A S} (l : list A) (f g : S → A → M S) acc w :
  (∀ acc x w, f acc x w = g acc x w) →
  for_loop l f acc w = for_loop l g acc w.
Proof.
  intros H. revert acc w. induction l as [|x l IH]; intros acc w; simpl; [done|].
  munfold. rewrite H. destruct (g acc x w) as [[acc'|e] w']; [|done]. apply IH.
Qed.

Lemma for_loop_fmap {A B S} (h : A → B) (l : list A) (body : S → B → M S) acc w :
  for_loop (h <$> l) body acc w = for_loop l (λ acc x, body acc (h x)) acc w.
Proof.
  revert acc w. induction l as [|x l IH]; intros acc w; simpl; [done|].
  munfold. destruct (body acc (h x) w) as [[acc'|e] w']; [|done]. apply IH.
Qed.

Lemma insert_all_cons (k : path) (v : node) (l : list (path * node)) (m : gmap path node) :
  insert_all ((k, v) :: l) m = insert_all l (<[k := v]> m).
Proof. done. Qed.

Lemma insert_all_app (l1 l2 : list (path * node)) (m : gmap path node) :
  insert_all (l1 ++ l2) m = insert_all l2 (insert_all l1 m).
Proof. apply foldl_app. Qed.

(** ** [extract_images] *)

Lemma Path_mkdir_exist_ok parents w d :
  d ≠ [] → stat (fs w) (path_parent d) = Some Dir → is_file (fs w) d = false →
  Path_mkdir parents true d w = (Return tt, set_fs (<[d := Dir]> (fs w)) w).
Proof.
  intros Hne Hp Hf. unfold is_file in Hf. unfold Path_mkdir.
  assert (∀ fuel, Path_mkdir_go fuel parents true d w
                  = (Return tt, set_fs (<[d := Dir]> (fs w)) w)) as H;
    [|apply H].
  intros fuel.
  assert (stat (fs w) d = fs w !! d) as Hst by by destruct d.
  destruct fuel; simpl; unfold os_mkdir, is_dir; munfold;
    (destruct (stat (fs w) d) as [[|?]|] eqn:E; [|done|]; simpl;
     [rewrite E; simpl; rewrite insert_id by congruence; by rewrite set_fs_id
     |by rewrite Hp]).
Qed.

Section images.
Context `{L : Libs}.

Lemma extract_images_flatten d doc pages n cnt w :
  for_loop (enumerate n pages) (extract_images_page d doc) cnt w
  = for_loop (all_images_from n pages) (flat_body d doc) cnt w.
Proof.
  revert n cnt w. induction pages as [|imgs pages IH]; intros n cnt w; [done|].
  cbn [enumerate all_images_from for_loop]. rewrite for_loop_app.
  assert (extract_images_page d doc cnt (n, imgs) w
          = for_loop ((λ ix : nat * Z, (n, ix.1, ix.2)) <$> enumerate 0 imgs)
              (flat_body d doc) cnt w) as Hin.
  { unfold extract_images_page. rewrite for_loop_fmap.
    apply for_loop_ext. by intros acc [i x] w'. }
  munfold. rewrite Hin.
  destruct (for_loop _ _ cnt w) as [[cnt'|e] w']; [|done]. apply IH.
Qed.

Lemma extract_images_image_spec d doc p cnt i x w :
  stat (fs w) d = Some Dir →
  (∀ n, stat (fs w) (d // n) ≠ Some Dir) →
  extract_images_image d doc p cnt (i, x) w
  = match doc_extract_image doc x with
    | Raise e => (Raise e, w)
    | Return bi =>
        let r := gm_convert ["-strip"; "-quality"; "85"] (image bi) in
        (Return (cnt + 1),
         World (<[d // image_name p i (ext bi) := File r.1]> (fs w))
               (log w ++ match r.2 with
                         | Some e => [(WARNING, "图片优化失败: " +:+ exn_msg e)]
                         | None => []
                         end)
               (cwd w) (worker w))
    end.
Proof.
  intros Hd Hnd. unfold extract_images_image.
  destruct (doc_extract_image doc x) as [bi|e]; [|done].
  erewrite bind_Return by done. cbv beta.
  set (f := d // image_name p i (ext bi)).
  assert (stat (fs w) (path_parent f) = Some Dir) as Hp
    by (subst f; by rewrite parent_snoc).
  erewrite bind_Return by (apply write_file_ok; [done|apply Hnd]).
  cbv beta.
  set (w1 := set_fs _ w).
  assert (stat (fs w1) f = Some (File (image bi))) as Hr.
  { subst w1 f. rewrite stat_snoc. simpl. by rewrite lookup_insert_eq. }
  assert (stat (fs w1) (path_parent f) = Some Dir) as Hp1.
  { subst w1 f. rewrite parent_snoc. simpl.
    destruct d as [|a d']; [done|]. simpl in *.
    rewrite lookup_insert_ne; [done|]. intros Heq.
    apply (prefix_snoc_not (a :: d') (image_name p i (ext bi))).
    unfold truediv in Heq. by rewrite Heq. }
  set (r := gm_convert _ _).
  assert (subprocess_run_gm f w1
          = (match r.2 with Some e => Raise e | None => Return tt end,
             set_fs (<[f := File r.1]> (fs w)) w)) as Hgm.
  { unfold subprocess_run_gm.
    erewrite bind_Return by by apply read_file_ok. cbv beta zeta. fold r.
    erewrite bind_Return; last first.
    { apply write_file_ok; [done|]. by rewrite Hr. }
    subst w1. simpl. rewrite insert_insert_eq.
    unfold set_fs. simpl. by destruct r.2. }
  unfold _optimize_image, mbind, M_bind, try_except. rewrite Hgm.
  destruct r.2; wdone.
Qed.

Lemma image_loop_spec d doc l cnt w :
  stat (fs w) d = Some Dir → d ≠ [] →
  (∀ n, stat (fs w) (d // n) ≠ Some Dir) →
  for_loop l (flat_body d doc) cnt w
  = let plan := image_plan doc l in
    (match plan.2 with
     | None => Return (cnt + List.length plan.1)
     | Some e => Raise e
     end,
     World (insert_all ((λ f, (d // if_name f, File (if_content f))) <$> plan.1)
                       (fs w))
           (log w ++ gm_warnings plan.1) (cwd w) (worker w)).
Proof.
  intros Hd Hne. revert cnt w Hd.
  induction l as [|[[p i] x] l IH]; intros cnt w Hd Hnd.
  - simpl. rewrite app_nil_r, Nat.add_0_r. by destruct w.
  - cbn [for_loop image_plan]. munfold. unfold flat_body at 1. cbn [fst snd].
    rewrite extract_images_image_spec by done.
    destruct (doc_extract_image doc x) as [bi|e]; cbv zeta; cbn [fst snd].
    + rewrite IH; simpl.
      * destruct (image_plan doc l) as [files err]; simpl.
        replace (cnt + 1 + List.length files) with (cnt + S (List.length files))
          by lia.
        unfold gm_warnings at 2. simpl.
        by destruct (gm_convert _ _).2; simpl; rewrite <-?app_assoc, ?app_nil_r.
      * rewrite <-Hd. destruct d as [|a d']; [done|]. simpl.
        apply lookup_insert_ne. intros Heq.
        apply (prefix_snoc_not (a :: d') (image_name p i (ext bi))).
        unfold truediv in Heq. by rewrite Heq.
      * intros n. rewrite stat_snoc.
        destruct (decide (d // image_name p i (ext bi) = d // n)) as [->|Hn].
        -- by rewrite lookup_insert_eq.
        -- rewrite lookup_insert_ne by done. rewrite <-stat_snoc. apply Hnd.
    + rewrite app_nil_r. by destruct w.
Qed.
End images.

Lemma stat_insert_ne (m : gmap path node) (k p : path) (v : node) :
  p ≠ k → stat (<[k := v]> m) p = stat m p.
Proof. intros Hne. destruct p; [done|]. simpl. by rewrite lookup_insert_ne. Qed.

Lemma stat_insert_eq (m : gmap path node) (k : path) (v : node) :
  k ≠ [] → stat (<[k := v]> m) k = Some v.
Proof. intros Hne. destruct k; [done|]. simpl. by rewrite lookup_insert_eq. Qed.

Section images_spec.
Context `{L : Libs}.

Lemma extract_images_spec s w :
  constructed s → scratch_inv s (fs w) →
  let src := stat (fs w) (pdf_path s) in
  run_op Images s w
  = (Return (op_return s src Images),
     World (insert_all (op_writes s src Images) (fs w))
           (log w ++ op_logs s src Images) (cwd w) (worker w)).
Proof.
  intros Hc Hi src. destruct (constructed_inv s Hc) as (i & Ht & Ho & Hp).
  unfold run_op, extract_images.
  set (d := temp_dir s // "images").
  set (w0 := add_log (INFO, "开始提取图片...") w).
  set (w1 := set_fs (<[d := Dir]> (fs w)) w0).
  assert (Path_mkdir false true d w0 = (Return tt, w1)) as Hmk.
  { apply Path_mkdir_exist_ok.
    - apply snoc_ne_nil.
    - by apply scratch_inv_parent.
    - by destruct Hi as (_ & _ & ?). }
  assert (stat (fs w1) (pdf_path s) = src) as Hsrc.
  { subst w1. simpl. apply stat_insert_ne. intros Heq.
    apply Hp. rewrite Heq. apply prefix_snoc_self. }
  assert (stat (fs w1) d = Some Dir) as Hd
    by (subst w1; simpl; apply stat_insert_eq, snoc_ne_nil).
  assert (∀ n, stat (fs w1) (d // n) ≠ Some Dir) as Hnd.
  { intros n. apply scratch_inv_image_not_dir.
    by apply scratch_inv_insert_images. }
  unfold op_return, op_writes, op_logs, images_plan, doc_result, src_read,
    result_bind, images_dir. fold d.
    assert (∀ r w2,
    try_except
      (b ← read_file (pdf_path s);
       doc ← lift (fitz_open b);
       image_count ← for_loop (enumerate 0 (doc_pages doc))
                       (extract_images_page d doc) 0;
       logger INFO ("成功提取 " +:+ pretty image_count +:+ " 张图片到 "
                    +:+ msg_of d);;
       mret (Some d))
      (λ e, logger ERROR ("图片提取失败: " +:+ exn_msg e);; mret None) w1
    = (Return r, w2) →
    (d0 ← (logger INFO "开始提取图片...";;
           Path_mkdir false true d;;
           try_except
             (b ← read_file (pdf_path s);
              doc ← lift (fitz_open b);
              image_count ← for_loop (enumerate 0 (doc_pages doc))
                              (extract_images_page d doc) 0;
              logger INFO ("成功提取 " +:+ pretty image_count +:+ " 张图片到 "
                           +:+ msg_of d);;
              mret (Some d))
             (λ e, logger ERROR ("图片提取失败: " +:+ exn_msg e);; mret None));
     mret (ROptPath d0)) w = (Return (ROptPath r), w2)) as Hwrap.
  { intros r w2 E.
    erewrite bind_Return; [reflexivity|].
    erewrite bind_Return by reflexivity. cbv beta.
    erewrite bind_Return by exact Hmk. exact E. }
  unfold op_return, op_writes, op_logs, images_plan, doc_result, src_read,
    result_bind, images_dir. fold d. fold src. rewrite <-Hsrc.
  destruct (stat (fs w1) (pdf_path s)) as [[|b]|] eqn:Es.
  - erewrite Hwrap; last first.
    { erewrite try_Raise; [reflexivity|].
      erewrite bind_Raise; [reflexivity|].
      unfold read_file. munfold. by rewrite Es. }
    subst w1 w0. wdone.
  - destruct (fitz_open b) as [doc|e] eqn:Ef.
    + pose proof (eq_trans
                    (extract_images_flatten d doc (doc_pages doc) 0 0 w1)
                    (image_loop_spec d doc (all_images_from 0 (doc_pages doc))
                       0 w1 Hd (snoc_ne_nil _ _) Hnd))
        as Hloop.
      cbv zeta in Hloop. fold (all_images doc) in Hloop.
      destruct (image_plan doc (all_images doc)) as [files [e|]] eqn:Epl;
        cbn [fst snd] in Hloop |- *.
      * erewrite Hwrap; last first.
        { erewrite try_Raise; [reflexivity|].
          erewrite bind_Return by by apply read_file_ok. cbv beta.
          rewrite Ef. erewrite bind_Return by reflexivity. cbv beta.
          erewrite bind_Raise by exact Hloop. reflexivity. }
        subst w1 w0. wdone.
      * erewrite Hwrap; last first.
        { erewrite try_Return; [reflexivity|].
          erewrite bind_Return by by apply read_file_ok. cbv beta.
          rewrite Ef. erewrite bind_Return by reflexivity. cbv beta.
          erewrite bind_Return by exact Hloop. reflexivity. }
        subst w1 w0. wdone.
    + erewrite Hwrap; last first.
      { erewrite try_Raise; [reflexivity|].
        erewrite bind_Return by by apply read_file_ok. cbv beta.
        rewrite Ef. erewrite bind_Raise by reflexivity. reflexivity. }
      subst w1 w0. wdone.
  - erewrite Hwrap; last first.
    { erewrite try_Raise; [reflexivity|].
      erewrite bind_Raise; [reflexivity|].
      unfold read_file. munfold. by rewrite Es. }
    subst w1 w0. wdone.
Qed.
End images_spec.

(** ** The five operations, uniformly *)

Section ops.
Context `{L : Libs}.
Implicit Types (s : PDFParser) (w : world) (o : operation).

(** On a sound scratch directory every operation returns, writes and
    logs what its summary says. *)
Lemma run_op_spec o s w :
  constructed s → scratch_inv s (fs w) →
  let src := stat (fs w) (pdf_path s) in
  run_op o s w
  = (Return (op_return s src o),
     World (insert_all (op_writes s src o) (fs w))
           (log w ++ op_logs s src o) (cwd w) (worker w)).
Proof.
  intros Hc Hi. destruct o.
  - by apply perform_ocr_spec.
  - apply extract_text_spec.
  - by apply extract_images_spec.
  - by apply extract_tables_spec.
  - apply extract_structured_spec.
Qed.

Lemma op_writes_keys o s src k :
  k ∈ (op_writes s src o).*1 → op_key o s k.
Proof.
  destruct o; simpl.
  - destruct (ocr_result s src); simpl; [|by intros ?%elem_of_nil].
    by intros ->%list_elem_of_singleton.
  - by intros ?%elem_of_nil.
  - intros [->|Hk]%elem_of_cons; [done|].
    rewrite <-list_fmap_compose in Hk.
    apply list_elem_of_fmap in Hk as (f & -> & _). simpl.
    apply prefix_snoc_self.
  - destruct (tables_result s src) as [[|t ts]|]; simpl;
      try by intros ?%elem_of_nil.
    by intros ->%list_elem_of_singleton.
  - by intros ?%elem_of_nil.
Qed.

Lemma images_dir_ne_temp s : images_dir s ≠ temp_dir s.
Proof.
  unfold images_dir, truediv. intros H.
  by apply (prefix_snoc_not (temp_dir s) "images"); rewrite H.
Qed.

Lemma ocr_path_not_images s :
  constructed s → ¬ images_dir s `prefix_of` ocr_path s.
Proof.
  intros (i & _ & -> & _)%constructed_inv.
  intros [H|H]%prefix_snoc_inv.
  - by apply snoc_inj in H as [_ ?].
  - by apply prefix_snoc_not in H.
Qed.

Lemma excel_path_not_images s : ¬ images_dir s `prefix_of` excel_path s.
Proof.
  unfold excel_path. intros [H|H]%prefix_snoc_inv.
  - by apply snoc_inj in H as [_ ?].
  - by apply prefix_snoc_not in H.
Qed.

Lemma ocr_path_ne_excel s : constructed s → ocr_path s ≠ excel_path s.
Proof.
  intros (i & _ & -> & _)%constructed_inv. unfold excel_path.
  by intros [_ ?]%snoc_inj.
Qed.

Lemma op_key_under o s k :
  constructed s → op_key o s k → temp_dir s `prefix_of` k ∧ k ≠ temp_dir s.
Proof.
  intros Hc Hk. destruct (constructed_inv s Hc) as (i & _ & Ho & _).
  destruct o; simpl in Hk; try done; subst.
  - rewrite Ho. split; [apply prefix_snoc_self|].
    intros H. eapply (prefix_snoc_not (temp_dir s)). unfold truediv in H.
    by rewrite H.
  - split; [by etrans; [apply prefix_snoc_self|]|].
    intros ->. by apply prefix_snoc_not in Hk.
  - unfold excel_path. split; [apply prefix_snoc_self|].
    intros H. eapply (prefix_snoc_not (temp_dir s)). unfold truediv in H.
    by rewrite H.
Qed.

Lemma op_key_disjoint o1 o2 s k :
  constructed s → o1 ≠ o2 → op_key o1 s k → op_key o2 s k → False.
Proof.
  intros Hc Hne H1 H2.
  destruct o1, o2; simpl in *; try done; subst;
    first [by eapply ocr_path_not_images
          |by eapply excel_path_not_images
          |by eapply ocr_path_ne_excel
          |by eapply eq_sym, ocr_path_ne_excel in H2].
Qed.

Lemma op_key_not_source o s :
  constructed s → ¬ op_key o s (pdf_path s).
Proof.
  intros Hc Hk. destruct (op_key_under _ _ _ Hc Hk) as [Hp _].
  by destruct (constructed_inv s Hc) as (_ & _ & _ & ?).
Qed.
End ops.

(** ** Sequences of insertions *)

Lemma insert_all_insert_ne (l : list (path * node)) (m : gmap path node)
    (k : path) (v : node) :
  k ∉ l.*1 → insert_all l (<[k := v]> m) = <[k := v]> (insert_all l m).
Proof.
  revert m. induction l as [|[k' v'] l IH]; intros m Hk; [done|].
  rewrite !insert_all_cons. apply not_elem_of_cons in Hk as [Hne Hk].
  rewrite <-IH by done. f_equal. by apply insert_insert_ne.
Qed.

Lemma insert_all_comm (l1 l2 : list (path * node)) (m : gmap path node) :
  (∀ k, k ∈ l1.*1 → k ∈ l2.*1 → False) →
  insert_all l1 (insert_all l2 m) = insert_all l2 (insert_all l1 m).
Proof.
  revert m. induction l1 as [|[k v] l1 IH]; intros m Hd; [done|].
  rewrite !insert_all_cons. rewrite <-IH.
  - f_equal. symmetry. apply insert_all_insert_ne.
    intros Hk. apply (Hd k); [left|done].
  - intros k' H1 H2. apply (Hd k'); [by right|done].
Qed.

Lemma stat_insert_all (l : list (path * node)) (m : gmap path node) (p : path) :
  p ∉ l.*1 → stat (insert_all l m) p = stat m p.
Proof.
  revert m. induction l as [|[k v] l IH]; intros m Hp; [done|].
  apply not_elem_of_cons in Hp as [Hne Hp].
  rewrite insert_all_cons, IH by done. by apply stat_insert_ne.
Qed.

Lemma lookup_insert_all_ne (l : list (path * node)) (m : gmap path node) (p : path) :
  p ∉ l.*1 → insert_all l m !! p = m !! p.
Proof.
  revert m. induction l as [|[k v] l IH]; intros m Hp; [done|].
  apply not_elem_of_cons in Hp as [Hne Hp].
  rewrite insert_all_cons, IH by done. by apply lookup_insert_ne.
Qed.

Lemma scratch_inv_insert_all_files s (l : list (path * node)) m :
  scratch_inv s m →
  Forall (λ kv, (∃ b, kv.2 = File b) ∧ kv.1 ≠ temp_dir s
                ∧ kv.1 ≠ temp_dir s // "images") l →
  scratch_inv s (insert_all l m).
Proof.
  intros Hi Hl. revert m Hi.
  induction Hl as [|[k v] l ([b Hb] & H1 & H2) _ IH]; intros m Hi; [done|].
  rewrite insert_all_cons. apply IH. simpl in *. subst.
  by apply scratch_inv_insert_file.
Qed.

Section ops_seq.
Context `{L : Libs}.
Implicit Types (s : PDFParser) (w : world) (o : operation).

Lemma op_writes_inv o s src m :
  constructed s → scratch_inv s m →
  scratch_inv s (insert_all (op_writes s src o) m).
Proof.
  intros Hc Hi.
  assert (∀ k b, op_key o s k → k ≠ images_dir s →
            Forall (λ kv, (∃ b, kv.2 = File b) ∧ kv.1 ≠ temp_dir s
                          ∧ kv.1 ≠ temp_dir s // "images") [(k, File b)])
    as Hone.
  { intros k b Hk Hne. apply Forall_singleton. split_and!; [by eexists| |done].
    by apply (op_key_under o). }
  destruct o; cbn [op_writes].
  - destruct (ocr_result s src); [|done].
    apply scratch_inv_insert_all_files; [done|]. apply Hone; [done|].
    intros Heq. apply (ocr_path_not_images s Hc). by rewrite Heq.
  - done.
  - rewrite insert_all_cons.
    apply scratch_inv_insert_all_files; [by apply scratch_inv_insert_images|].
    apply Forall_fmap, Forall_forall. intros f _. simpl. split_and!.
    + by eexists.
    + intros Heq. apply (f_equal List.length) in Heq.
      unfold images_dir, truediv in Heq. rewrite !length_app in Heq.
      simpl in Heq. lia.
    + intros Heq. eapply (prefix_snoc_not (images_dir s)).
      unfold truediv, images_dir in *. by rewrite Heq.
  - destruct (tables_result s src) as [[|t ts]|]; [done| |done].
    apply scratch_inv_insert_all_files; [done|]. apply Hone; [done|].
    intros Heq. apply (excel_path_not_images s). by rewrite Heq.
  - done.
Qed.

Lemma op_writes_source o s src m :
  constructed s →
  stat (insert_all (op_writes s src o) m) (pdf_path s) = stat m (pdf_path s).
Proof.
  intros Hc. apply stat_insert_all. intros Hk%op_writes_keys.
  by apply (op_key_not_source o s).
Qed.

Lemma op_writes_comm o1 o2 s src m :
  constructed s →
  insert_all (op_writes s src o1) (insert_all (op_writes s src o2) m)
  = insert_all (op_writes s src o2) (insert_all (op_writes s src o1) m).
Proof.
  intros Hc. destruct (decide (o1 = o2)) as [->|Hne]; [done|].
  apply insert_all_comm. intros k H1%op_writes_keys H2%op_writes_keys.
  by apply (op_key_disjoint o1 o2 s k).
Qed.

Lemma ops_fs_inv l s src m :
  constructed s → scratch_inv s m → scratch_inv s (ops_fs s src l m).
Proof.
  intros Hc. revert m. induction l as [|o l IH]; intros m Hi; [done|].
  simpl. by apply IH, op_writes_inv.
Qed.

Lemma ops_fs_perm l1 l2 s src m :
  constructed s → l1 ≡ₚ l2 → ops_fs s src l1 m = ops_fs s src l2 m.
Proof.
  intros Hc Hp. revert m.
  induction Hp as [|o l1 l2 _ IH|o1 o2 l|l1 l2 l3 _ IH1 _ IH2]; intros m.
  - done.
  - simpl. apply IH.
  - simpl. f_equal. by apply op_writes_comm.
  - by rewrite IH1.
Qed.

(** Running a list of operations on a sound scratch directory: every
    operation returns its summary value and the file system is the
    initial one with all their writes. *)
Lemma run_ops_spec l s w :
  constructed s → scratch_inv s (fs w) →
  let src := stat (fs w) (pdf_path s) in
  run_ops l s w
  = (Return ((λ o, (o, op_return s src o)) <$> l),
     World (ops_fs s src l (fs w))
           (log w ++ List.concat (op_logs s src <$> l)) (cwd w) (worker w)).
Proof.
  intros Hc. revert w. induction l as [|o l IH]; intros w Hi src.
  - simpl. rewrite app_nil_r. by destruct w.
  - cbn [run_ops]. erewrite bind_Return by by apply run_op_spec.
    cbv beta. fold src.
    set (w1 := World _ _ _ _).
    assert (stat (fs w1) (pdf_path s) = src) as Hsrc
      by by apply op_writes_source.
    erewrite bind_Return; last first.
    { apply IH. by apply op_writes_inv. }
    rewrite Hsrc. subst w1. simpl. by rewrite <-app_assoc.
Qed.
End ops_seq.

(** The constructor establishes the invariant of the scratch directory
    and the five operations keep it. *)
Lemma PDFParser_init_scratch_inv p w s w' :
  PDFParser_init p w = (Return s, w') → constructed s ∧ scratch_inv s (fs w').
Proof.
  intros E. split; [by eexists _, _, _|].
  apply PDFParser_init_inv in E as (_ & i & -> & -> & Hfresh).
  split_and!; simpl.
  - apply lookup_insert_eq.
  - apply map_Forall_insert_2; [auto|].
    intros q n Hq Hpre _. by rewrite (Hfresh _ Hpre) in Hq.
  - unfold is_file. rewrite stat_snoc, lookup_insert_ne;
      [|intros H; by apply eq_sym, snoc_ne_self in H].
    by rewrite Hfresh by apply prefix_snoc_self.
Qed.

Lemma run_op_scratch_inv `{L : Libs} o s w r w' :
  constructed s → scratch_inv s (fs w) → run_op o s w = (r, w') →
  scratch_inv s (fs w').
Proof.
  intros Hc Hi E. rewrite run_op_spec in E by done. simplify_eq. simpl.
  by apply op_writes_inv.
Qed.

(** C7: on a constructed session whose scratch directory is sound (no
    [cleanup] has run), two runs of the same operations in different orders
    give every operation the same return value and end with the same file
    system, hence the same artifacts in the scratch directory. *)
Theorem C7_order_independent `{L : Libs} (s : PDFParser) (w : world)
    (l1 l2 : list operation) :
  constructed s → scratch_inv s (fs w) → l1 ≡ₚ l2 →
  ∃ (value : operation → retval) (w1 w2 : world),
    run_ops l1 s w = (Return ((λ o, (o, value o)) <$> l1), w1)
    ∧ run_ops l2 s w = (Return ((λ o, (o, value o)) <$> l2), w2)
    ∧ fs w1 = fs w2.
Proof.
  intros Hc Hi Hp.
  exists (op_return s (stat (fs w) (pdf_path s))). eexists _, _.
  split_and!; [by apply run_ops_spec..|]. simpl. by apply ops_fs_perm.
Qed.

Lemma demo_scratch_inv : scratch_inv demo_session (fs demo_world1).
Proof. apply (bool_decide_unpack _). vm_compute. exact I. Qed.

Lemma C7_order_independent_witness :
  ∃ (value : operation → retval) (w1 w2 : world),
    @run_ops demo_libs [Ocr; Text; Images; Tables; Structured]
      demo_session demo_world1
    = (Return ((λ o, (o, value o)) <$> [Ocr; Text; Images; Tables; Structured]), w1)
    ∧ @run_ops demo_libs [Tables; Structured; Images; Ocr; Text]
        demo_session demo_world1
      = (Return ((λ o, (o, value o)) <$> [Tables; Structured; Images; Ocr; Text]), w2)
    ∧ fs w1 = fs w2.
Proof.
  apply (@C7_order_independent demo_libs demo_session demo_world1).
  - exists demo_src, demo_world, demo_world1. vm_compute. reflexivity.
  - apply (bool_decide_unpack _). vm_compute. exact I.
  - apply (Permutation_trans
             (Permutation_app_comm [Ocr; Text; Images] [Tables; Structured])
             (perm_skip Tables (perm_skip Structured
                (Permutation_app_comm [Ocr; Text] [Images])))).
Defined.

(** ** Names built from numbers *)

Lemma pretty_N_char_digit x : is_digit (pretty_N_char x) = true.
Proof. unfold pretty_N_char. by repeat case_match. Qed.

Lemma pretty_N_go_digits x s :
  digits_only s = true → digits_only (pretty_N_go x s) = true.
Proof.
  revert s. induction (N.lt_wf_0 x) as [x _ IH]; intros s Hs.
  destruct (decide (x = 0)%N) as [->|Hx]; [done|].
  rewrite pretty_N_go_step by lia. apply IH.
  - apply N.div_lt; lia.
  - simpl. by rewrite pretty_N_char_digit.
Qed.

Lemma pretty_nat_digits (n : nat) : digits_only (pretty n) = true.
Proof.
  unfold pretty, pretty_nat, pretty, pretty_N. case_decide; [done|].
  by apply pretty_N_go_digits.
Qed.

(** Two strings of digits followed by the same non-digit: the digits and
    the rests agree. *)
Lemma digits_sep (s1 s2 r1 r2 : string) (c : ascii) :
  digits_only s1 = true → digits_only s2 = true → is_digit c = false →
  s1 +:+ String c r1 = s2 +:+ String c r2 → s1 = s2 ∧ r1 = r2.
Proof.
  intros H1 H2 Hc. revert s2 H2.
  induction s1 as [|a s1 IH]; intros [|a' s2] H2 Heq; simpl in *.
  - by simplify_eq.
  - simplify_eq. apply andb_prop in H2 as [H2 _]. congruence.
  - simplify_eq. apply andb_prop in H1 as [H1 _]. congruence.
  - apply andb_prop in H1 as [_ H1]. apply andb_prop in H2 as [_ H2].
    injection Heq as -> Heq. destruct (IH H1 s2 H2 Heq) as [-> ->]. done.
Qed.

(** The file name of an image determines its page and its index. *)
Lemma image_name_inj p i e p' i' e' :
  image_name p i e = image_name p' i' e' → p = p' ∧ i = i'.
Proof.
  unfold image_name. intros H. simpl in H. injection H as H.
  apply digits_sep in H as [Hp H]; [|apply pretty_nat_digits..|done].
  apply digits_sep in H as [Hi _]; [|apply pretty_nat_digits..|done].
  apply (inj pretty) in Hp. apply (inj pretty) in Hi. lia.
Qed.

#[global] Instance sheet_name_inj : Inj (=) (=) sheet_name.
Proof.
  intros i j H. unfold sheet_name in H.
  change ("Table_" +:+ pretty i)
    with (String "T" (String "a" (String "b" (String "l" (String "e"
            (String "_" (pretty i))))))) in H.
  change ("Table_" +:+ pretty j)
    with (String "T" (String "a" (String "b" (String "l" (String "e"
            (String "_" (pretty j))))))) in H.
  injection H as H. by apply (inj pretty) in H.
Qed.

Lemma enumerate_fst {A} (l : list A) n : (enumerate n l).*1 = seq n (List.length l).
Proof. revert n. induction l as [|x l IH]; intros n; simpl; by rewrite ?IH. Qed.

Lemma enumerate_snd {A} (l : list A) n : (enumerate n l).*2 = l.
Proof. revert n. induction l as [|x l IH]; intros n; simpl; by rewrite ?IH. Qed.

Lemma enumerate_length {A} (l : list A) n :
  List.length (enumerate n l) = List.length l.
Proof. revert n. induction l as [|x l IH]; intros n; simpl; by rewrite ?IH. Qed.

Lemma all_images_from_length n pages :
  List.length (all_images_from n pages) = List.length (List.concat pages).
Proof.
  revert n. induction pages as [|imgs pages IH]; intros n; simpl; [done|].
  by rewrite !length_app, length_fmap, enumerate_length, IH.
Qed.

Lemma all_images_from_ge n pages (pix : nat * nat * Z) :
  pix ∈ all_images_from n pages → (n ≤ pix.1.1)%nat.
Proof.
  revert n. induction pages as [|imgs pages IH]; intros n; simpl.
  - by intros ?%elem_of_nil.
  - intros [H|H]%elem_of_app.
    + apply list_elem_of_fmap in H as (ix & -> & _). simpl. lia.
    + apply IH in H. lia.
Qed.

(** No two images share page number and index. *)
Lemma all_images_from_NoDup n pages :
  NoDup ((λ pix : nat * nat * Z, pix.1) <$> all_images_from n pages).
Proof.
  revert n. induction pages as [|imgs pages IH]; intros n; simpl.
  - constructor.
  - rewrite fmap_app. apply NoDup_app. split_and!.
    + rewrite <-list_fmap_compose.
      assert ((λ pix : nat * nat * Z, pix.1) ∘ (λ ix : nat * Z, (n, ix.1, ix.2))
              = pair n ∘ fst) as -> by done.
      rewrite list_fmap_compose.
      apply (NoDup_fmap_2 _). rewrite enumerate_fst. apply NoDup_seq.
    + intros pi H1 H2.
      apply list_elem_of_fmap in H1 as (pix & -> & H1).
      apply list_elem_of_fmap in H1 as (ix & -> & _). simpl in H2.
      apply list_elem_of_fmap in H2 as (pix' & Heq & H2).
      apply all_images_from_ge in H2. rewrite <-Heq in H2. simpl in H2. lia.
    + apply IH.
Qed.

(** ** From [run_op] back to the methods *)

Section methods.
Context `{L : Libs}.
Implicit Types (s : PDFParser) (w : world).

Lemma run_op_Ocr s w r w' :
  run_op Ocr s w = (Return (RPath r), w') → perform_ocr s w = (Return r, w').
Proof.
  unfold run_op. munfold.
  destruct (perform_ocr s w) as [[?|?] ?]; intros; by simplify_eq.
Qed.

Lemma run_op_Text s w r w' :
  run_op Text s w = (Return (RText r), w') →
  extract_text_with_pdfminer s w = (Return r, w').
Proof.
  unfold run_op. munfold.
  destruct (extract_text_with_pdfminer s w) as [[?|?] ?]; intros; by simplify_eq.
Qed.

Lemma run_op_Images s w r w' :
  run_op Images s w = (Return (ROptPath r), w') →
  extract_images s w = (Return r, w').
Proof.
  unfold run_op. munfold.
  destruct (extract_images s w) as [[?|?] ?]; intros; by simplify_eq.
Qed.

Lemma run_op_Tables s w r w' :
  run_op Tables s w = (Return (ROptPath r), w') →
  extract_tables s w = (Return r, w').
Proof.
  unfold run_op. munfold.
  destruct (extract_tables s w) as [[?|?] ?]; intros; by simplify_eq.
Qed.

Lemma run_op_Structured s w r w' :
  run_op Structured s w = (Return (RElements r), w') →
  extract_structured_content s w = (Return r, w').
Proof.
  unfold run_op. munfold.
  destruct (extract_structured_content s w) as [[?|?] ?]; intros; by simplify_eq.
Qed.

(** Without a workbook to write, [extract_tables] needs nothing from the
    scratch directory. *)
Lemma extract_tables_absent s w :
  (∀ t ts, tables_result s (stat (fs w) (pdf_path s)) ≠ Return (t :: ts)) →
  extract_tables s w
  = (Return None,
     World (fs w)
           (log w ++ op_logs s (stat (fs w) (pdf_path s)) Tables) (cwd w) (worker w)).
Proof.
  unfold extract_tables, read_file, op_logs, tables_result, src_read,
    result_bind.
  intros H. munfold. simpl.
  destruct (stat (fs w) (pdf_path s)) as [[|b]|]; simpl; try wdone.
  destruct (tabula_read_pdf _ _ _ b) as [[|t ts]|e]; simpl; try wdone.
  by destruct (H t ts).
Qed.
End methods.

Lemma sheets_of_names (tables : list table) :
  (sheets_of tables).*1 = sheet_name <$> seq 1 (List.length tables).
Proof.
  unfold sheets_of. rewrite <-list_fmap_compose.
  rewrite <-enumerate_fst, <-list_fmap_compose. done.
Qed.

Lemma sheets_of_tables (tables : list table) : (sheets_of tables).*2 = tables.
Proof.
  unfold sheets_of. rewrite <-list_fmap_compose.
  rewrite <-(enumerate_snd tables 1) at 2. done.
Qed.

(** ** [extract_tables] *)

(** C3: [extract_tables] returns [None], without raising and without
    writing anything, when the detector finds no table or fails (an
    unreadable source counts as a failure).  When the detector finds
    [N >= 1] tables and the scratch directory is sound, it writes one
    workbook at [tables_<stem>.xlsx] directly inside the scratch directory,
    with the sheets [Table_1 .. Table_N] holding the detected tables in
    order, and returns that path. *)
Theorem C3_extract_tables `{L : Libs} (s : PDFParser) (w : world) :
  constructed s →
  let detected := tables_result s (stat (fs w) (pdf_path s)) in
  ((detected = Return [] ∨ (∃ e, detected = Raise e)) →
     ∃ w', extract_tables s w = (Return None, w') ∧ fs w' = fs w)
  ∧ (∀ t ts, scratch_inv s (fs w) → detected = Return (t :: ts) →
       let sheets := sheets_of (t :: ts) in
       ∃ w', extract_tables s w = (Return (Some (excel_path s)), w')
         ∧ fs w' = <[excel_path s := File (xlsx_of_sheets sheets)]> (fs w)
         ∧ path_parent (excel_path s) = temp_dir s
         ∧ sheets.*2 = t :: ts
         ∧ sheets.*1 = sheet_name <$> seq 1 (List.length (t :: ts))
         ∧ NoDup sheets.*1).
Proof.
  intros Hc detected. split.
  - intros Hd. eexists. split; [apply extract_tables_absent|done].
    intros t ts. fold detected. destruct Hd as [->|[e ->]]; done.
  - intros t ts Hi Hd sheets.
    pose proof (run_op_spec Tables s w Hc Hi) as E. cbv zeta in E.
    unfold op_return, op_writes in E. fold detected in E. rewrite Hd in E.
    apply run_op_Tables in E. eexists. split; [exact E|]. cbn [fs].
    split_and!.
    + done.
    + apply parent_snoc.
    + apply sheets_of_tables.
    + apply sheets_of_names.
    + subst sheets. rewrite sheets_of_names.
      apply (NoDup_fmap_2 _), NoDup_seq.
Qed.

Lemma C3_extract_tables_witness :
  (∃ w', @extract_tables demo_libs demo_session demo_world1
         = (Return (Some (excel_path demo_session)), w')
     ∧ fs w' = <[excel_path demo_session
                 := File (@xlsx_of_sheets demo_libs
                            (sheets_of [[["a"; "b"]]; [["c"]]]))]>
                 (fs demo_world1)
     ∧ path_parent (excel_path demo_session) = temp_dir demo_session
     ∧ (sheets_of [[["a"; "b"]]; [["c"]]]).*2 = [[["a"; "b"]]; [["c"]]]
     ∧ (sheets_of [[["a"; "b"]]; [["c"]]]).*1 = sheet_name <$> seq 1 2
     ∧ NoDup (sheets_of [[["a"; "b"]]; [["c"]]]).*1).
Proof.
  refine (proj2 (@C3_extract_tables demo_libs demo_session demo_world1 _)
                [["a"; "b"]] [[["c"]]] _ _).
  - exists demo_src, demo_world, demo_world1. vm_compute. reflexivity.
  - apply (bool_decide_unpack _). vm_compute. exact I.
  - vm_compute. reflexivity.
Defined.

(** ** [extract_images] on a readable document *)

Lemma image_plan_ok `{L : Libs} doc (l : list (nat * nat * Z)) :
  Forall (λ pix, ∃ bi, doc_extract_image doc pix.2 = Return bi) l →
  (image_plan doc l).2 = None ∧ Forall2 (image_file_of doc) l (image_plan doc l).1.
Proof.
  induction 1 as [|[[p i] x] l [bi Hbi] _ [IH1 IH2]]; simpl.
  - split; [done|constructor].
  - simpl in Hbi. rewrite Hbi. simpl. split; [done|].
    constructor; [|done]. exists bi. by split.
Qed.

Lemma image_files_NoDup `{L : Libs} doc (l : list (nat * nat * Z)) files :
  Forall2 (image_file_of doc) l files →
  NoDup ((λ pix : nat * nat * Z, pix.1) <$> l) → NoDup (if_name <$> files).
Proof.
  induction 1 as [|pix f l files (bi & Hbi & ->) HF IH]; simpl; [constructor|].
  intros [Hnin Hnd]%NoDup_cons. constructor; [|by apply IH].
  intros Hin. apply Hnin.
  apply list_elem_of_fmap in Hin as (f' & Hname & Hf').
  destruct (proj1 (list_elem_of_lookup _ _) Hf') as [j Hj].
  destruct (Forall2_lookup_r _ _ _ _ _ HF Hj) as (pix' & Hpix' & bi' & _ & ->).
  simpl in Hname. apply image_name_inj in Hname as [H1 H2].
  apply list_elem_of_fmap. exists pix'. split.
  - destruct pix as [[? ?] ?], pix' as [[? ?] ?]. simpl in *. by subst.
  - by eapply list_elem_of_lookup_2.
Qed.

Lemma lookup_insert_all_NoDup (l : list (path * node)) (m : gmap path node)
    (k : path) (v : node) :
  NoDup l.*1 → (k, v) ∈ l → insert_all l m !! k = Some v.
Proof.
  revert m. induction l as [|[k' v'] l IH]; intros m Hnd Hin.
  - by apply elem_of_nil in Hin.
  - simpl in Hnd. apply NoDup_cons in Hnd as [Hnin Hnd].
    rewrite insert_all_cons. apply elem_of_cons in Hin as [Heq|Hin].
    + simplify_eq. rewrite lookup_insert_all_ne by done.
      by rewrite lookup_insert_eq.
    + by apply IH.
Qed.

Lemma gm_warnings_elem (files : list image_file) f e :
  f ∈ files → if_gm_error f = Some e →
  (WARNING, "图片优化失败: " +:+ exn_msg e) ∈ gm_warnings files.
Proof.
  intros Hf He. unfold gm_warnings. apply list_elem_of_omap.
  exists f. split; [done|]. by rewrite He.
Qed.

(** C4: for a constructed session with a sound scratch directory and a
    source that [fitz] opens as a document whose listed images can all be
    extracted, [extract_images] returns the [images] directory and leaves
    exactly one file per listed image ([K] in total) in it.  The file of the
    image with index [i] on page [p] is named [image_p<p+1>_<i+1>.<ext>];
    the names are pairwise different; each file holds what [gm] left of
    that image's own bytes, whether or not [gm] reported an error for it or
    for any other file; every [gm] error is logged as a warning; and nothing
    outside the [images] directory changes. *)
Theorem C4_extract_images `{L : Libs} (s : PDFParser) (w : world)
    (b : bytes) (doc : document) :
  constructed s → scratch_inv s (fs w) →
  stat (fs w) (pdf_path s) = Some (File b) →
  fitz_open b = Return doc →
  Forall (λ pix, ∃ bi, doc_extract_image doc pix.2 = Return bi) (all_images doc) →
  ∃ (files : list image_file) (w' : world),
    extract_images s w = (Return (Some (images_dir s)), w')
    ∧ List.length files = List.length (List.concat (doc_pages doc))
    ∧ Forall2 (image_file_of doc) (all_images doc) files
    ∧ NoDup (if_name <$> files)
    ∧ (∀ f, f ∈ files →
         fs w' !! (images_dir s // if_name f) = Some (File (if_content f)))
    ∧ (∀ f e, f ∈ files → if_gm_error f = Some e →
         (WARNING, "图片优化失败: " +:+ exn_msg e) ∈ log w')
    ∧ fs w' !! images_dir s = Some Dir
    ∧ (∀ p, p ≠ images_dir s →
         (∀ f, f ∈ files → p ≠ images_dir s // if_name f) →
         fs w' !! p = fs w !! p).
Proof.
  intros Hc Hi Hsrc Hdoc Hall.
  destruct (image_plan_ok doc _ Hall) as [Hnone HF].
  set (files := (image_plan doc (all_images doc)).1) in *.
  pose proof (run_op_spec Images s w Hc Hi) as E. cbv zeta in E.
  unfold op_return, op_writes, op_logs, images_plan, doc_result, src_read,
    result_bind in E.
  rewrite Hsrc, Hdoc in E. fold files in E. rewrite Hnone in E.
  apply run_op_Images in E.
  pose proof (image_files_NoDup doc _ _ HF (all_images_from_NoDup 0 _)) as Hnd.
  set (kvs := (λ f, (images_dir s // if_name f, File (if_content f))) <$> files)
    in *.
  assert (NoDup kvs.*1) as Hkeys.
  { subst kvs. rewrite <-list_fmap_compose.
    rewrite (list_fmap_compose if_name (truediv (images_dir s))).
    apply NoDup_fmap_2; [|done]. intros x y H. by apply snoc_inj in H as [_ ?]. }
  assert (images_dir s ∉ kvs.*1) as Hdir.
  { subst kvs. rewrite <-list_fmap_compose.
    intros (f & Heq & _)%list_elem_of_fmap. simpl in Heq.
    eapply (prefix_snoc_not (images_dir s)). unfold truediv in Heq.
    by rewrite <-Heq. }
  exists files. eexists. split; [exact E|]. cbn [fs log].
  rewrite insert_all_cons. split_and!.
  - subst files. apply Forall2_length in HF. rewrite <-HF.
    apply all_images_from_length.
  - done.
  - done.
  - intros f Hf. apply lookup_insert_all_NoDup; [done|].
    subst kvs.
    apply (list_elem_of_fmap_2
             (λ f, (images_dir s // if_name f, File (if_content f))) _ f Hf).
  - intros f e Hf He. apply elem_of_app. right. apply elem_of_cons. right.
    apply elem_of_app. left. by apply (gm_warnings_elem _ f e).
  - rewrite lookup_insert_all_ne by done. by rewrite lookup_insert_eq.
  - intros p Hp Hnf. rewrite lookup_insert_all_ne.
    + by rewrite lookup_insert_ne.
    + subst kvs. rewrite <-list_fmap_compose.
      intros (f & Heq & Hf)%list_elem_of_fmap. by apply (Hnf f).
Qed.

Lemma C4_extract_images_witness :
  ∃ (files : list image_file) (w' : world),
    @extract_images demo_libs_gm_fails demo_session demo_world1
    = (Return (Some (images_dir demo_session)), w')
    ∧ List.length files = List.length (List.concat (doc_pages demo_doc))
    ∧ Forall2 (@image_file_of demo_libs_gm_fails demo_doc) (all_images demo_doc) files
    ∧ NoDup (if_name <$> files)
    ∧ (∀ f, f ∈ files →
         fs w' !! (images_dir demo_session // if_name f)
         = Some (File (if_content f)))
    ∧ (∀ f e, f ∈ files → if_gm_error f = Some e →
         (WARNING, "图片优化失败: " +:+ exn_msg e) ∈ log w')
    ∧ fs w' !! images_dir demo_session = Some Dir
    ∧ (∀ p, p ≠ images_dir demo_session →
         (∀ f, f ∈ files → p ≠ images_dir demo_session // if_name f) →
         fs w' !! p = fs demo_world1 !! p).
Proof.
  apply (@C4_extract_images demo_libs_gm_fails demo_session demo_world1
           "%PDF-1.4 scan" demo_doc).
  - exists demo_src, demo_world, demo_world1. vm_compute. reflexivity.
  - apply (bool_decide_unpack _). vm_compute. exact I.
  - vm_compute. reflexivity.
  - reflexivity.
  - repeat constructor; eexists; reflexivity.
Defined.

(** ** OCR does not feed the other extractions *)

Section ocr_frame.
Context `{L : Libs}.

(** In any world [perform_ocr] returns, and the only entry of the file
    system it can change is [ocr_path]. *)
Lemma perform_ocr_frame s w :
  ∃ r w1, perform_ocr s w = (Return r, w1)
    ∧ cwd w1 = cwd w
    ∧ ∀ p, p ≠ ocr_path s → fs w1 !! p = fs w !! p.
Proof.
  unfold perform_ocr.
  erewrite bind_Return by reflexivity.
  cbv beta. set (w0 := add_log _ w). unfold try_except.
  destruct (ocrmypdf_ocr_call (pdf_path s) (ocr_path s)
              (OcrOptions "chi_sim+eng" true false false) w0)
    as [r' w1] eqn:E.
  pose proof (ocrmypdf_ocr_call_inv _ _ _ _ _ _ E)
    as [(b & out & -> & _ & _ & -> & _)|(e & -> & ->)].
  - erewrite bind_Return by exact E. eexists _, _. split; [reflexivity|].
    split; [done|]. intros p Hp. simpl. by rewrite lookup_insert_ne.
  - erewrite bind_Raise by exact E. eexists _, _. split; [reflexivity|].
    by split.
Qed.
End ocr_frame.

(** C6: on a constructed session, running [perform_ocr] first changes
    nothing for the two extractions: the source file is left as it was,
    [extract_text_with_pdfminer] returns what [pdfminer] extracts from the
    original source bytes, and (on a sound scratch directory)
    [extract_tables] returns and writes what [tabula] detects in the
    original source bytes; the return values with and without OCR are the
    same. *)
Theorem C6_extraction_reads_source `{L : Libs} (s : PDFParser) (w : world) :
  constructed s →
  ∃ r w1, perform_ocr s w = (Return r, w1)
    ∧ stat (fs w1) (pdf_path s) = stat (fs w) (pdf_path s)
    ∧ (extract_text_with_pdfminer s w1).1 = (extract_text_with_pdfminer s w).1
    ∧ (∀ b, stat (fs w) (pdf_path s) = Some (File b) →
         (extract_text_with_pdfminer s w1).1
         = Return (match pdfminer_extract_text b with
                   | Return t => t
                   | Raise _ => ""
                   end))
    ∧ (scratch_inv s (fs w) →
         (extract_tables s w1).1 = (extract_tables s w).1
         ∧ ∀ b, stat (fs w) (pdf_path s) = Some (File b) →
             (extract_tables s w1).1
             = Return (match tabula_read_pdf "all" true true b with
                       | Return (_ :: _) => Some (excel_path s)
                       | _ => None
                       end)
             ∧ ∀ t ts, tabula_read_pdf "all" true true b = Return (t :: ts) →
                 fs (extract_tables s w1).2 !! excel_path s
                 = Some (File (xlsx_of_sheets (sheets_of (t :: ts))))).
Proof.
  intros Hc. destruct (constructed_inv s Hc) as (i & Ht & Ho & Hp).
  destruct (perform_ocr_frame s w) as (r & w1 & E & _ & Hframe).
  assert (stat (fs w1) (pdf_path s) = stat (fs w) (pdf_path s)) as Hsrc.
  { assert (pdf_path s ≠ ocr_path s) as Hne.
    { intros Heq. apply Hp. rewrite Heq, Ho. apply prefix_snoc_self. }
    destruct (pdf_path s) as [|a p']; [done|]. simpl. by apply Hframe. }
  assert (∀ w', (extract_text_with_pdfminer s w').1
                = Return (match text_result s (stat (fs w') (pdf_path s)) with
                          | Return t => t
                          | Raise _ => ""
                          end)) as Htext.
  { intros w'. pose proof (extract_text_spec s w') as E'. cbv zeta in E'.
    apply run_op_Text in E'. by rewrite E'. }
  exists r, w1. split_and!; [done..| | |].
  - by rewrite !Htext, Hsrc.
  - intros b Hb. rewrite Htext, Hsrc, Hb. done.
  - intros Hi.
    assert (scratch_inv s (fs w1)) as Hi1.
    { pose proof (run_op_spec Ocr s w Hc Hi) as E'. cbv zeta in E'.
      apply run_op_Ocr in E'. rewrite E in E'. simplify_eq.
      by apply op_writes_inv. }
    pose proof (run_op_spec Tables s w Hc Hi) as E0.
    pose proof (run_op_spec Tables s w1 Hc Hi1) as E1.
    cbv zeta in E0, E1. apply run_op_Tables in E0, E1.
    rewrite E0, E1. cbn [fst snd fs]. rewrite Hsrc. split; [done|].
    intros b Hb. rewrite Hb. unfold tables_result, src_read, result_bind.
    split; [done|]. intros t ts Htab. unfold op_writes, tables_result,
      src_read, result_bind. rewrite Htab. cbn [insert_all foldl fst snd].
    by rewrite lookup_insert_eq.
Qed.

Lemma C6_extraction_reads_source_witness :
  ∃ r w1, @perform_ocr demo_libs demo_session demo_world1 = (Return r, w1)
    ∧ stat (fs w1) (pdf_path demo_session)
      = stat (fs demo_world1) (pdf_path demo_session)
    ∧ (@extract_text_with_pdfminer demo_libs demo_session w1).1
      = (@extract_text_with_pdfminer demo_libs demo_session demo_world1).1
    ∧ (∀ b, stat (fs demo_world1) (pdf_path demo_session) = Some (File b) →
         (@extract_text_with_pdfminer demo_libs demo_session w1).1
         = Return (match @pdfminer_extract_text demo_libs b with
                   | Return t => t
                   | Raise _ => ""
                   end))
    ∧ (scratch_inv demo_session (fs demo_world1) →
         (@extract_tables demo_libs demo_session w1).1
         = (@extract_tables demo_libs demo_session demo_world1).1
         ∧ ∀ b, stat (fs demo_world1) (pdf_path demo_session) = Some (File b) →
             (@extract_tables demo_libs demo_session w1).1
             = Return (match @tabula_read_pdf demo_libs "all" true true b with
                       | Return (_ :: _) => Some (excel_path demo_session)
                       | _ => None
                       end)
             ∧ ∀ t ts, @tabula_read_pdf demo_libs "all" true true b
                       = Return (t :: ts) →
                 fs (@extract_tables demo_libs demo_session w1).2
                   !! excel_path demo_session
                 = Some (File (@xlsx_of_sheets demo_libs (sheets_of (t :: ts))))).
Proof.
  apply (@C6_extraction_reads_source demo_libs demo_session demo_world1).
  exists demo_src, demo_world, demo_world1. vm_compute. reflexivity.
Defined.

(** ** [extract_images] after [cleanup] *)

(** Once the scratch directory is gone, the [mkdir] that precedes the
    [try] block of [extract_images] raises, and nothing catches it. *)
Lemma extract_images_scratch_gone `{L : Libs} (s : PDFParser) (w : world) :
  stat (fs w) (temp_dir s) = None →
  fs w !! (temp_dir s // "images") = None →
  extract_images s w
  = (Raise (Exn FileNotFoundError (msg_of (temp_dir s // "images"))),
     add_log (INFO, "开始提取图片...") w).
Proof.
  intros Ht Hi. unfold extract_images.
  erewrite bind_Return by reflexivity. cbv beta zeta.
  erewrite bind_Raise; [reflexivity|].
  by apply Path_mkdir_parent_missing.
Qed.

Lemma extract_images_after_cleanup `{L : Libs} (s : PDFParser) (w : world) :
  constructed s → is_dir (fs w) (temp_dir s) = true →
  ∃ w1 e w2,
    cleanup s w = (Return tt, w1)
    ∧ extract_images s w1 = (Raise e, w2)
    ∧ exn_cls e = FileNotFoundError.
Proof.
  intros Hc Hd.
  destruct (cleanup_removes s w Hc Hd) as (w1 & E & Hl).
  exists w1, (Exn FileNotFoundError (msg_of (temp_dir s // "images"))).
  eexists. split; [done|]. split; [|reflexivity].
  apply extract_images_scratch_gone.
  - destruct (constructed_inv s Hc) as (i & Ht & _). rewrite Ht, stat_snoc, <-Ht.
    rewrite Hl. by rewrite decide_True.
  - rewrite Hl. rewrite decide_True; [done|apply prefix_snoc_self].
Qed.

(** C1: that no method raises once the session is constructed does not
    hold for [extract_images] after [cleanup].  In the demo world the
    constructor succeeds, [cleanup] removes the scratch directory, and the
    following [extract_images] raises [FileNotFoundError]:
    [images_dir.mkdir] stands before the [try] block.  The other five
    methods never raise (see the [no_raise] lemmas). *)
Theorem C1_extract_images_raises_after_cleanup :
  ∃ w2 e w3,
    PDFParser_init demo_src demo_world = (Return demo_session, demo_world1)
    ∧ cleanup demo_session demo_world1 = (Return tt, w2)
    ∧ @extract_images demo_libs demo_session w2 = (Raise e, w3)
    ∧ exn_cls e = FileNotFoundError.
Proof.
  eexists _, _, _. split_and!.
  - vm_compute. reflexivity.
  - vm_compute. reflexivity.
  - vm_compute. reflexivity.
  - reflexivity.
Qed.

(** ** Footprints *)

Create HintDb modifies.

Lemma modifies_ret {A} P (a : A) : modifies P (mret a).
Proof. intros w r w' [= <- <-] p _. done. Qed.

Lemma modifies_raise {A} P e : modifies P (@raise A e).
Proof. intros w r w' [= <- <-] p _. done. Qed.

Lemma modifies_lift {A} P (x : result A) : modifies P (lift x).
Proof. intros w r w' [= <- <-] p _. done. Qed.

Lemma modifies_logger P l s : modifies P (logger l s).
Proof. intros w r w' [= <- <-] p _. done. Qed.

Lemma modifies_emit P s : modifies P (emit s).
Proof. intros w r w' [= <- <-] p _. done. Qed.

Lemma modifies_set_result P k v : modifies P (set_result k v).
Proof. intros w r w' [= <- <-] p _. done. Qed.

Lemma modifies_get_results P : modifies P get_results.
Proof. intros w r w' [= <- <-] p _. done. Qed.

Lemma modifies_get_cwd P : modifies P get_cwd.
Proof. intros w r w' [= <- <-] p _. done. Qed.

Lemma modifies_get_fs P : modifies P get_fs.
Proof. intros w r w' [= <- <-] p _. done. Qed.

Lemma modifies_bind {A B} P (m : M A) (f : A → M B) :
  modifies P m → (∀ a, modifies P (f a)) → modifies P (m ≫= f).
Proof.
  intros Hm Hf w r w' E p Hp. unfold mbind, M_bind in E.
  destruct (m w) as [[a|e] w1] eqn:E1.
  - rewrite (Hf a _ _ _ E p Hp). by apply (Hm _ _ _ E1).
  - simplify_eq. by apply (Hm _ _ _ E1).
Qed.

Lemma modifies_try {A} P (m : M A) h :
  modifies P m → (∀ e, modifies P (h e)) → modifies P (try_except m h).
Proof.
  intros Hm Hh w r w' E p Hp. unfold try_except in E.
  destruct (m w) as [[a|e] w1] eqn:E1.
  - simplify_eq. by apply (Hm _ _ _ E1).
  - rewrite (Hh e _ _ _ E p Hp). by apply (Hm _ _ _ E1).
Qed.

Lemma modifies_for_loop {A S} P (l : list A) (body : S → A → M S) acc :
  (∀ acc x, modifies P (body acc x)) → modifies P (for_loop l body acc).
Proof.
  intros Hb. revert acc. induction l as [|x l IH]; intros acc; simpl.
  - apply modifies_ret.
  - apply modifies_bind; [apply Hb|apply IH].
Qed.

Lemma modifies_read_file P p : modifies P (read_file p).
Proof. intros w r w' E q _. by apply read_file_inv in E as [-> _]. Qed.

Lemma modifies_write_file (P : path → Prop) p b :
  P p → modifies P (write_file p b).
Proof.
  intros HP w r w' E q Hq.
  apply write_file_inv in E as [(_ & -> & _)|(e & _ & ->)]; [|done].
  simpl. apply lookup_insert_ne. by intros ->.
Qed.

Lemma modifies_os_mkdir (P : path → Prop) p : P p → modifies P (os_mkdir p).
Proof.
  intros HP w r w' E q Hq. unfold os_mkdir in E. munfold.
  repeat case_match; simplify_eq; try done.
  simpl. apply lookup_insert_ne. by intros ->.
Qed.

Lemma modifies_Path_mkdir_go (P : path → Prop) fuel parents ok p :
  (∀ q, q `prefix_of` p → P q) → modifies P (Path_mkdir_go fuel parents ok p).
Proof.
  revert parents ok p. induction fuel as [|fuel IH]; intros parents ok p HP.
  - simpl. apply modifies_try; [by apply modifies_os_mkdir, HP|].
    intros e. destruct (exn_cls e);
      repeat first [apply modifies_raise | apply modifies_ret
                   | apply modifies_bind; [apply modifies_get_fs|intros ?]
                   | case_match ].
  - simpl. apply modifies_try; [by apply modifies_os_mkdir, HP|].
    intros e.
    assert (∀ q, q `prefix_of` path_parent p → P q) as HPp.
    { intros q Hq. apply HP. etrans; [done|].
      unfold path_parent. destruct (decide (p = [])) as [->|Hne]; [done|].
      destruct (exists_last Hne) as (p' & x & ->).
      rewrite removelast_last. by eexists. }
    destruct (exn_cls e);
      repeat first [apply modifies_raise | apply modifies_ret
                   | apply modifies_bind; [apply modifies_get_fs|intros ?]
                   | apply modifies_bind; [by apply IH|intros ?]
                   | apply modifies_try; [by apply modifies_os_mkdir, HP|intros ?]
                   | case_match ].
Qed.

Lemma modifies_Path_mkdir (P : path → Prop) parents ok p :
  (∀ q, q `prefix_of` p → P q) → modifies P (Path_mkdir parents ok p).
Proof. apply modifies_Path_mkdir_go. Qed.

(** Without [parents] only the directory itself can appear. *)
Lemma modifies_Path_mkdir_single (P : path → Prop) ok p :
  P p → modifies P (Path_mkdir false ok p).
Proof.
  intros HP. unfold Path_mkdir.
  destruct (List.length p); simpl;
    (apply modifies_try; [by apply modifies_os_mkdir|]);
    intros e; destruct (exn_cls e); simpl;
    repeat first [apply modifies_raise | apply modifies_ret
                 | apply modifies_bind; [apply modifies_get_fs|intros ?]
                 | case_match ].
Qed.

Lemma modifies_rmtree (P : path → Prop) d :
  (∀ q, d `prefix_of` q → P q) → modifies P (rmtree d).
Proof.
  intros HP w r w' E q Hq. unfold rmtree in E. munfold.
  repeat case_match; simplify_eq; try done.
  simpl. rewrite lookup_rmtree. case_decide; [|done]. destruct Hq. by apply HP.
Qed.

Lemma modifies_copy2 (P : path → Prop) src dst :
  P dst → P (dst // path_name src) → modifies P (copy2 src dst).
Proof.
  intros H1 H2. unfold copy2.
  apply modifies_bind; [apply modifies_get_fs|intros m].
  repeat case_match; try apply modifies_raise;
    (apply modifies_bind; [apply modifies_read_file|intros ?]);
    by apply modifies_write_file.
Qed.

Lemma modifies_weaken {A} (P Q : path → Prop) (m : M A) :
  modifies P m → (∀ p, P p → Q p) → modifies Q m.
Proof. intros Hm HPQ w r w' E p Hp. apply (Hm _ _ _ E). auto. Qed.

#[local] Hint Resolve modifies_ret modifies_raise modifies_lift modifies_logger
  modifies_emit modifies_set_result modifies_get_results modifies_get_cwd
  modifies_get_fs modifies_read_file : modifies.
#[local] Hint Extern 2 (modifies _ (_ ≫= _)) =>
  apply modifies_bind; [|intros ?] : modifies.
#[local] Hint Extern 2 (modifies _ (try_except _ _)) =>
  apply modifies_try; [|intros ?] : modifies.
#[local] Hint Extern 2 (modifies _ (for_loop _ _ _)) =>
  apply modifies_for_loop; intros ? ? : modifies.
#[local] Hint Extern 3 (modifies _ (if ?b then _ else _)) =>
  destruct b : modifies.
#[local] Hint Extern 3 (modifies _ (match ?x with _ => _ end)) =>
  destruct x : modifies.

Section footprints.
Context `{L : Libs}.
Implicit Types (s : PDFParser) (P : path → Prop).

Lemma modifies_perform_ocr P s : P (ocr_path s) → modifies P (perform_ocr s).
Proof.
  intros HP. unfold perform_ocr, ocrmypdf_ocr_call.
  auto 20 using modifies_write_file with modifies.
Qed.

Lemma modifies_extract_text P s : modifies P (extract_text_with_pdfminer s).
Proof. unfold extract_text_with_pdfminer. auto 20 with modifies. Qed.

Lemma modifies_extract_structured P s :
  modifies P (extract_structured_content s).
Proof. unfold extract_structured_content. auto 20 with modifies. Qed.

Lemma modifies_extract_tables P s :
  P (excel_path s) → modifies P (extract_tables s).
Proof.
  intros HP. unfold extract_tables, ExcelWriter.
  auto 30 using modifies_write_file with modifies.
Qed.

Lemma modifies_optimize_image P p : P p → modifies P (_optimize_image p).
Proof.
  intros HP. unfold _optimize_image, subprocess_run_gm.
  auto 20 using modifies_write_file with modifies.
Qed.

Lemma modifies_extract_images P s :
  (∀ q, images_dir s `prefix_of` q → P q) → modifies P (extract_images s).
Proof.
  intros HP. unfold extract_images.
  apply modifies_bind; [apply modifies_logger|intros _].
  apply modifies_bind.
  { apply modifies_Path_mkdir_single. by apply HP. }
  intros _. apply modifies_try; [|auto with modifies].
  apply modifies_bind; [apply modifies_read_file|intros b].
  apply modifies_bind; [apply modifies_lift|intros doc].
  apply modifies_bind; [|auto with modifies].
  apply modifies_for_loop. intros cnt [p imgs]. unfold extract_images_page.
  apply modifies_for_loop. intros cnt' [i x]. unfold extract_images_image.
  apply modifies_bind; [apply modifies_lift|intros bi].
  assert (P (temp_dir s // "images" // image_name p i (ext bi))) as HPf
    by apply HP, prefix_snoc_self.
  auto 20 using modifies_write_file, modifies_optimize_image with modifies.
Qed.

Lemma modifies_cleanup P s :
  (∀ q, temp_dir s `prefix_of` q → P q) → modifies P (cleanup s).
Proof.
  intros HP. unfold cleanup. auto 20 using modifies_rmtree with modifies.
Qed.
End footprints.

(** ** The log only grows *)

Create HintDb extends_log.

Lemma extends_log_pure {A} (m : M A) :
  (∀ w r w', m w = (r, w') → log w' = log w) → extends_log m.
Proof. intros H w r w' E. by rewrite (H _ _ _ E). Qed.

Lemma extends_log_ret {A} (a : A) : extends_log (mret a).
Proof. apply extends_log_pure. by intros w r w' [= <- <-]. Qed.

Lemma extends_log_raise {A} e : extends_log (@raise A e).
Proof. apply extends_log_pure. by intros w r w' [= <- <-]. Qed.

Lemma extends_log_lift {A} (x : result A) : extends_log (lift x).
Proof. apply extends_log_pure. by intros w r w' [= <- <-]. Qed.

Lemma extends_log_get_fs : extends_log get_fs.
Proof. apply extends_log_pure. by intros w r w' [= <- <-]. Qed.

Lemma extends_log_put_fs m : extends_log (put_fs m).
Proof. apply extends_log_pure. by intros w r w' [= <- <-]. Qed.

Lemma extends_log_emit s : extends_log (emit s).
Proof. apply extends_log_pure. by intros w r w' [= <- <-]. Qed.

Lemma extends_log_set_result k v : extends_log (set_result k v).
Proof. apply extends_log_pure. by intros w r w' [= <- <-]. Qed.

Lemma extends_log_get_results : extends_log get_results.
Proof. apply extends_log_pure. by intros w r w' [= <- <-]. Qed.

Lemma extends_log_logger l s : extends_log (logger l s).
Proof. intros w r w' [= <- <-]. simpl. by eexists. Qed.

Lemma extends_log_bind {A B} (m : M A) (f : A → M B) :
  extends_log m → (∀ a, extends_log (f a)) → extends_log (m ≫= f).
Proof.
  intros Hm Hf w r w' E. unfold mbind, M_bind in E.
  destruct (m w) as [[a|e] w1] eqn:E1.
  - etrans; [by apply (Hm _ _ _ E1)|by apply (Hf a _ _ _ E)].
  - simplify_eq. by apply (Hm _ _ _ E1).
Qed.

Lemma extends_log_try {A} (m : M A) h :
  extends_log m → (∀ e, extends_log (h e)) → extends_log (try_except m h).
Proof.
  intros Hm Hh w r w' E. unfold try_except in E.
  destruct (m w) as [[a|e] w1] eqn:E1.
  - simplify_eq. by apply (Hm _ _ _ E1).
  - etrans; [by apply (Hm _ _ _ E1)|by apply (Hh e _ _ _ E)].
Qed.

Lemma extends_log_for_loop {A S} (l : list A) (body : S → A → M S) acc :
  (∀ acc x, extends_log (body acc x)) → extends_log (for_loop l body acc).
Proof.
  intros Hb. revert acc. induction l as [|x l IH]; intros acc; simpl.
  - apply extends_log_ret.
  - apply extends_log_bind; [apply Hb|apply IH].
Qed.

#[local] Hint Resolve extends_log_ret extends_log_raise extends_log_lift
  extends_log_get_fs extends_log_put_fs extends_log_emit
  extends_log_set_result extends_log_get_results extends_log_logger
  : extends_log.
#[local] Hint Extern 2 (extends_log (_ ≫= _)) =>
  apply extends_log_bind; [|intros ?] : extends_log.
#[local] Hint Extern 2 (extends_log (try_except _ _)) =>
  apply extends_log_try; [|intros ?] : extends_log.
#[local] Hint Extern 2 (extends_log (for_loop _ _ _)) =>
  apply extends_log_for_loop; intros ? ? : extends_log.
#[local] Hint Extern 3 (extends_log (if ?b then _ else _)) =>
  destruct b : extends_log.
#[local] Hint Extern 3 (extends_log (match ?x with _ => _ end)) =>
  destruct x : extends_log.
#[local] Hint Extern 3 (extends_log (let '(_, _) := ?x in _)) =>
  destruct x : extends_log.

Lemma extends_log_read_file p : extends_log (read_file p).
Proof. unfold read_file. auto 10 with extends_log. Qed.

Lemma extends_log_write_file p b : extends_log (write_file p b).
Proof. unfold write_file. auto 10 with extends_log. Qed.

Lemma extends_log_os_mkdir p : extends_log (os_mkdir p).
Proof. unfold os_mkdir. auto 10 with extends_log. Qed.

Lemma extends_log_rmtree d : extends_log (rmtree d).
Proof. unfold rmtree. auto 10 with extends_log. Qed.

#[local] Hint Resolve extends_log_read_file extends_log_write_file
  extends_log_os_mkdir extends_log_rmtree : extends_log.

Lemma extends_log_copy2 src dst : extends_log (copy2 src dst).
Proof. unfold copy2. auto 10 with extends_log. Qed.

Lemma extends_log_Path_mkdir_go fuel parents ok p :
  extends_log (Path_mkdir_go fuel parents ok p).
Proof.
  revert parents ok p. induction fuel as [|fuel IH]; intros parents ok p; simpl;
    auto 20 with extends_log.
Qed.

Lemma extends_log_Path_mkdir parents ok p :
  extends_log (Path_mkdir parents ok p).
Proof. apply extends_log_Path_mkdir_go. Qed.

#[local] Hint Resolve extends_log_copy2 extends_log_Path_mkdir : extends_log.

Section log_methods.
Context `{L : Libs}.

Lemma extends_log_perform_ocr s : extends_log (perform_ocr s).
Proof. unfold perform_ocr, ocrmypdf_ocr_call. auto 20 with extends_log. Qed.

Lemma extends_log_extract_text s : extends_log (extract_text_with_pdfminer s).
Proof. unfold extract_text_with_pdfminer. auto 20 with extends_log. Qed.

Lemma extends_log_extract_structured s :
  extends_log (extract_structured_content s).
Proof. unfold extract_structured_content. auto 20 with extends_log. Qed.

Lemma extends_log_extract_tables s : extends_log (extract_tables s).
Proof. unfold extract_tables, ExcelWriter. auto 30 with extends_log. Qed.

Lemma extends_log_extract_images s : extends_log (extract_images s).
Proof.
  unfold extract_images, extract_images_page, extract_images_image,
    _optimize_image, subprocess_run_gm.
  auto 40 with extends_log.
Qed.

Lemma extends_log_cleanup s : extends_log (cleanup s).
Proof. unfold cleanup. auto 20 with extends_log. Qed.
End log_methods.

#[local] Hint Resolve extends_log_perform_ocr extends_log_extract_text
  extends_log_extract_structured extends_log_extract_tables
  extends_log_extract_images extends_log_cleanup : extends_log.

(** ** [Path.mkdir] when it returns *)

Lemma os_mkdir_inv p w r w' :
  os_mkdir p w = (r, w') →
  (r = Return tt ∧ w' = set_fs (<[p := Dir]> (fs w)) w ∧ stat (fs w) p = None)
  ∨ (∃ e, r = Raise e ∧ w' = w).
Proof.
  unfold os_mkdir. munfold. intros E.
  repeat case_match; simplify_eq; eauto.
Qed.

Lemma os_mkdir_post p w w' :
  os_mkdir p w = (Return tt, w') →
  is_dir (fs w') p = true ∧ ∀ q x, fs w !! q = Some x → fs w' !! q = Some x.
Proof.
  intros E. apply os_mkdir_inv in E as [(_ & -> & Hn)|(e & ? & _)]; [|done].
  destruct p as [|a p']; [done|]. simpl in *. unfold is_dir. simpl.
  rewrite lookup_insert_eq. split; [done|]. intros q x Hq.
  rewrite lookup_insert_ne; [done|]. intros <-. congruence.
Qed.

Lemma exist_ok_check_post (ok : bool) p (e : exn) w w' :
  (m ← get_fs; if negb ok || negb (is_dir m p)
               then raise e else mret tt) w = (Return tt, w') →
  is_dir (fs w') p = true ∧ ∀ q x, fs w !! q = Some x → fs w' !! q = Some x.
Proof.
  intros E. munfold.
  destruct (negb ok || negb (is_dir (fs w) p)) eqn:Eb; simplify_eq.
  apply orb_false_elim in Eb as [_ Eb]. apply negb_false_iff in Eb.
  by split.
Qed.

(** When [Path.mkdir] returns, the directory exists and no entry that was
    there before has changed. *)
Lemma Path_mkdir_go_post fuel parents ok p w w' :
  Path_mkdir_go fuel parents ok p w = (Return tt, w') →
  is_dir (fs w') p = true
  ∧ ∀ q x, fs w !! q = Some x → fs w' !! q = Some x.
Proof.
  revert parents ok p w w'.
  induction fuel as [|fuel IH]; intros parents ok p w w' E;
    simpl in E; unfold try_except in E;
    destruct (os_mkdir p w) as [[[]|e] w1] eqn:E1.
  - simplify_eq. by apply os_mkdir_post.
  - apply os_mkdir_inv in E1 as [(? & _)|(e' & [= <-] & ->)]; [done|].
    destruct (exn_cls e); try by eapply exist_ok_check_post.
    case_match; by simplify_eq.
  - simplify_eq. by apply os_mkdir_post.
  - apply os_mkdir_inv in E1 as [(? & _)|(e' & [= <-] & ->)]; [done|].
    destruct (exn_cls e); try by eapply exist_ok_check_post.
    case_match; [by simplify_eq|].
    unfold mbind, M_bind in E.
    destruct (Path_mkdir_go fuel true true (path_parent p) w)
      as [[[]|e2] w2] eqn:E2; [|by simplify_eq].
    apply IH in E2 as [_ Hmono].
    unfold try_except in E.
    destruct (os_mkdir p w2) as [[[]|e3] w3] eqn:E3.
    + simplify_eq. destruct (os_mkdir_post _ _ _ E3) as [? Hm]. split; [done|].
      intros q x Hq. by apply Hm, Hmono.
    + apply os_mkdir_inv in E3 as [(? & _)|(e' & [= <-] & ->)]; [done|].
      destruct (exn_cls e3); try by simplify_eq.
      all: destruct (exist_ok_check_post _ _ _ _ _ E) as [? Hm]; split; [done|];
        intros q x Hq; by apply Hm, Hmono.
Qed.

Lemma setup_output_dir_post `{L : Libs} o w out w0 :
  setup_output_dir o w = (Return out, w0) →
  out = match o with Some d => d | None => cwd w // "pdf_output" end
  ∧ is_dir (fs w0) out = true
  ∧ log w `prefix_of` log w0
  ∧ (∀ q x, fs w !! q = Some x → fs w0 !! q = Some x)
  ∧ (∀ q, ¬ q `prefix_of` out → fs w0 !! q = fs w !! q).
Proof.
  unfold setup_output_dir. intros E.
  unfold mbind at 1, M_bind at 1, get_cwd in E.
  set (op := match o with Some d => d | None => cwd w // "pdf_output" end) in *.
  unfold mbind, M_bind in E.
  destruct (Path_mkdir true true op w) as [[[]|e] w1] eqn:E1;
    [|by simplify_eq].
  injection E as <- <-. split; [done|].
  pose proof (extends_log_Path_mkdir _ _ _ _ _ _ E1) as Hlog.
  pose proof (modifies_Path_mkdir (λ q, q `prefix_of` op) true true op
                (λ q H, H) _ _ _ E1) as Hmod.
  apply Path_mkdir_go_post in E1 as [Hd Hmono]. by split_and!.
Qed.

(** ** Copying out *)

Lemma copy2_ok w src dst b :
  stat (fs w) src = Some (File b) → is_dir (fs w) dst = false → src ≠ dst →
  stat (fs w) (path_parent dst) = Some Dir →
  copy2 src dst w = (Return tt, set_fs (<[dst := File b]> (fs w)) w).
Proof.
  intros Hs Hd Hne Hp. unfold copy2.
  erewrite bind_Return by reflexivity. cbv beta. rewrite Hd. cbv zeta.
  rewrite bool_decide_eq_false_2 by done.
  erewrite bind_Return by by apply read_file_ok.
  apply write_file_ok; [done|]. unfold is_dir in Hd. by destruct (stat _ dst) as [[|?]|].
Qed.

Lemma perform_ocr_fails `{L : Libs} s w b e :
  stat (fs w) (pdf_path s) = Some (File b) →
  ocrmypdf_ocr (OcrOptions "chi_sim+eng" true false false) b = Raise e →
  perform_ocr s w
  = (Return (pdf_path s),
     add_log (ERROR, "OCR 处理失败: " +:+ exn_msg e)
       (add_log (INFO, "开始执行 OCR 处理...") w)).
Proof.
  intros Hs He. unfold perform_ocr.
  erewrite bind_Return by reflexivity.
  erewrite try_Raise; [reflexivity|].
  erewrite bind_Raise; [reflexivity|].
  unfold ocrmypdf_ocr_call.
  erewrite bind_Return by by apply read_file_ok.
  erewrite bind_Raise; [reflexivity|]. unfold lift. by rewrite He.
Qed.

Lemma prefix_ocr_name_ne (n : string) : n ≠ "ocr_" +:+ n.
Proof.
  intros H. apply (f_equal String.length) in H.
  change (String.length ("ocr_" +:+ n)) with (4 + String.length n)%nat in H.
  lia.
Qed.

(** What the freshness of the scratch directory gives for a destination
    directory that was there before the constructor ran. *)
Lemma fresh_not_under (m : gmap path node) (i : nat) (out : path) :
  (∀ k, gettempdir // tmp_name i `prefix_of` k → m !! k = None) →
  is_dir m out = true →
  ¬ gettempdir // tmp_name i `prefix_of` out.
Proof.
  intros Hfresh Hd Hp. specialize (Hfresh _ Hp). unfold is_dir in Hd.
  destruct out as [|a out'].
  - by destruct Hp as [k Hk].
  - simpl in Hd. by rewrite Hfresh in Hd.
Qed.

Lemma under_tmp_snoc (i : nat) (out : path) (n : string) :
  ¬ gettempdir // tmp_name i `prefix_of` out →
  gettempdir // tmp_name i `prefix_of` out // n →
  out = gettempdir ∧ n = tmp_name i.
Proof.
  intros Hout [H|H]%prefix_snoc_inv; [|done]. by apply snoc_inj in H as [-> ->].
Qed.

(** ** The front ends after their OCR block *)

Section front_end_frames.
Context `{L : Libs}.
Implicit Types (s : PDFParser) (P : path → Prop) (out : path).

Lemma resolve_flags_input args : arg_input (resolve_flags args) = arg_input args.
Proof. unfold resolve_flags. by repeat case_match. Qed.

Lemma resolve_flags_keep_temp args :
  arg_keep_temp (resolve_flags args) = arg_keep_temp args.
Proof. unfold resolve_flags. by repeat case_match. Qed.

Lemma modifies_save_text P text out :
  P (out // "extracted_text.txt") → modifies P (save_text text out).
Proof.
  intros HP. unfold save_text.
  auto 20 using modifies_write_file with modifies.
Qed.

Lemma modifies_main_text P args s out :
  P (out // "extracted_text.txt") → modifies P (main_text args s out).
Proof.
  intros HP. unfold main_text.
  auto 20 using modifies_save_text, modifies_extract_text with modifies.
Qed.

Lemma modifies_copy_files P src dst :
  (∀ q, q `prefix_of` dst → P q) → (∀ q, dst `prefix_of` q → P q) →
  modifies P (copy_files src dst).
Proof.
  intros H1 H2. unfold copy_files.
  apply modifies_bind; [apply modifies_get_fs|intros m].
  case_match; [apply modifies_ret|].
  apply modifies_bind; [by apply modifies_Path_mkdir|intros _].
  apply modifies_bind; [apply modifies_get_fs|intros m'].
  apply modifies_bind; [|intros _; apply modifies_logger].
  apply modifies_for_loop. intros _ item.
  apply modifies_bind; [apply modifies_get_fs|intros m''].
  case_match; [|apply modifies_ret].
  apply modifies_copy2; apply H2.
  - apply prefix_snoc_self.
  - etrans; apply prefix_snoc_self.
Qed.

Lemma modifies_main_images P args s out :
  (∀ q, images_dir s `prefix_of` q → P q) →
  (∀ q, q `prefix_of` out // "images" → P q) →
  (∀ q, out // "images" `prefix_of` q → P q) →
  modifies P (main_images args s out).
Proof.
  intros H1 H2 H3. unfold main_images.
  auto 20 using modifies_extract_images, modifies_copy_files with modifies.
Qed.

Lemma modifies_main_tables P args s out :
  P (excel_path s) →
  (∀ q, out // ("tables_" +:+ path_stem (arg_input args) +:+ ".xlsx")
          `prefix_of` q → P q) →
  modifies P (main_tables args s out).
Proof.
  intros H1 H2. unfold main_tables.
  case_match; [|apply modifies_ret].
  apply modifies_bind; [apply modifies_logger|intros _].
  apply modifies_bind; [by apply modifies_extract_tables|intros [t|]];
    [|apply modifies_ret].
  apply modifies_bind; [apply modifies_get_fs|intros m].
  case_match; [|apply modifies_ret].
  apply modifies_bind; [|intros _; apply modifies_logger].
  apply modifies_copy2; apply H2; [done|apply prefix_snoc_self].
Qed.
End front_end_frames.

Lemma ocr_output_not_in_rest (i : nat) (out : path) (n x : string) :
  ¬ gettempdir // tmp_name i `prefix_of` out →
  ¬ rest_footprint (gettempdir // tmp_name i) out ("tables_" +:+ x)
      (out // ("ocr_" +:+ n)).
Proof.
  intros Hout [H|[H|[H|[H|H]]]].
  - by apply under_tmp_snoc in H as [_ ?].
  - by apply snoc_inj in H as [_ ?].
  - apply prefix_snoc_inv in H as [H|H].
    + by apply snoc_inj in H as [_ ?].
    + by apply prefix_snoc_not in H.
  - apply prefix_snoc_inv in H as [H|H].
    + by apply snoc_inj in H as [_ ?].
    + by apply prefix_snoc_not in H.
  - apply prefix_snoc_inv in H as [H|H].
    + by apply snoc_inj in H as [_ ?].
    + by apply prefix_snoc_not in H.
Qed.

Section after_ocr.
Context `{L : Libs}.

Lemma constructed_images_under s q :
  images_dir s `prefix_of` q → temp_dir s `prefix_of` q.
Proof. intros H. etrans; [apply prefix_snoc_self|exact H]. Qed.

Lemma modifies_main_after_ocr args s out :
  constructed s →
  modifies (rest_footprint (temp_dir s) out
              ("tables_" +:+ path_stem (arg_input args) +:+ ".xlsx"))
           (main_after_ocr args s out).
Proof.
  intros Hc. unfold main_after_ocr.
  apply modifies_bind; [|intros _].
  { apply modifies_main_text. right. by left. }
  apply modifies_bind; [|intros _].
  { apply modifies_main_images; intros q Hq.
    - left. by apply constructed_images_under.
    - right. right. by left.
    - right. right. right. by left. }
  apply modifies_bind; [|intros _].
  { apply modifies_main_tables.
    - left. apply prefix_snoc_self.
    - intros q Hq. by repeat right. }
  apply modifies_bind; [|intros _; auto with modifies].
  case_match; [|apply modifies_ret].
  apply modifies_cleanup. intros q Hq. by left.
Qed.

Lemma extends_log_main_after_ocr args s out :
  extends_log (main_after_ocr args s out).
Proof.
  unfold main_after_ocr, main_text, main_images, main_tables, save_text,
    copy_files.
  auto 40 with extends_log.
Qed.

Lemma modifies_run_after_ocr self s :
  constructed s →
  modifies (rest_footprint (temp_dir s) (wt_output_dir self)
              ("tables_" +:+ path_stem (wt_pdf_path self) +:+ ".xlsx"))
           (run_after_ocr self s).
Proof.
  intros Hc. unfold run_after_ocr.
  set (out := wt_output_dir self).
  set (P := rest_footprint _ _ _).
  assert (P (out // "extracted_text.txt")) as Htext by (right; by left).
  assert (∀ q, out // "images" `prefix_of` q → P q) as Himg
    by (intros q Hq; right; right; right; by left).
  assert (∀ q, q `prefix_of` out // "images" → P q) as Himg'
    by (intros q Hq; right; right; by left).
  assert (∀ q, temp_dir s `prefix_of` q → P q) as Htd by (intros q Hq; by left).
  assert (∀ q, out // ("tables_" +:+ path_stem (wt_pdf_path self) +:+ ".xlsx")
                 `prefix_of` q → P q) as Htab
    by (intros q Hq; by repeat right).
  clearbody P.
  apply modifies_bind; [|intros _].
  { unfold run_text.
    auto 20 using modifies_extract_text, modifies_write_file with modifies. }
  apply modifies_bind; [|intros _].
  { unfold run_images. case_match; [|apply modifies_ret].
    apply modifies_bind; [apply modifies_emit|intros _].
    apply modifies_bind.
    { apply modifies_extract_images. intros q Hq.
      by apply Htd, constructed_images_under. }
    intros [d|]; [|apply modifies_ret].
    apply modifies_bind; [by apply modifies_Path_mkdir|intros _].
    apply modifies_bind; [apply modifies_get_fs|intros m].
    apply modifies_bind; [|auto with modifies].
    apply modifies_for_loop. intros files item.
    apply modifies_bind; [apply modifies_get_fs|intros m'].
    case_match; [|apply modifies_ret].
    apply modifies_bind; [|intros _; apply modifies_ret].
    apply modifies_copy2; apply Himg.
    - apply prefix_snoc_self.
    - etrans; apply prefix_snoc_self. }
  apply modifies_bind; [|intros _].
  { unfold run_tables. case_match; [|apply modifies_ret].
    apply modifies_bind; [apply modifies_emit|intros _].
    apply modifies_bind.
    { apply modifies_extract_tables, Htd, prefix_snoc_self. }
    intros [t|]; [|apply modifies_ret].
    apply modifies_bind; [apply modifies_get_fs|intros m].
    case_match; [|apply modifies_ret].
    apply modifies_bind; [|intros _; apply modifies_set_result].
    apply modifies_copy2; apply Htab; [done|apply prefix_snoc_self]. }
  apply modifies_bind; [|intros _].
  { unfold run_structured.
    auto 20 using modifies_extract_structured with modifies. }
  apply modifies_bind; [|intros _; auto with modifies].
  case_match; [|apply modifies_ret].
  by apply modifies_cleanup.
Qed.
End after_ocr.

Section ocr_block.
Context `{L : Libs}.

Lemma extends_log_run_after_ocr self s : extends_log (run_after_ocr self s).
Proof.
  unfold run_after_ocr, run_text, run_images, run_tables, run_structured.
  auto 40 with extends_log.
Qed.

(** The constructor in a world where the source is a regular file and the
    destination directory exists. *)
Lemma init_before_copy w0 input b out (n : string) :
  stat (fs w0) input = Some (File b) →
  is_dir (fs w0) out = true →
  is_dir (fs w0) (out // ("ocr_" +:+ n)) = false →
  ∃ i s w1,
    PDFParser_init input w0 = (Return s, w1)
    ∧ constructed s
    ∧ pdf_path s = input
    ∧ temp_dir s = gettempdir // tmp_name i
    ∧ ¬ temp_dir s `prefix_of` out
    ∧ log w1 = log w0
    ∧ stat (fs w1) input = Some (File b)
    ∧ stat (fs w1) out = Some Dir
    ∧ is_dir (fs w1) (out // ("ocr_" +:+ n)) = false.
Proof.
  intros Hin Hout Hdst.
  assert (exists_ (fs w0) input = true) as Hex by (unfold exists_; by rewrite Hin).
  destruct (PDFParser_init_ok input w0 Hex) as (i & E & Hfresh). cbv zeta in *.
  set (td := gettempdir // tmp_name i) in *.
  pose proof (fresh_not_under _ _ _ Hfresh Hout) as Hnu.
  assert (∀ p, ¬ td `prefix_of` p →
            stat (<[td := Dir]> (fs w0)) p = stat (fs w0) p) as Hstat.
  { intros p Hp. apply stat_insert_ne. by intros ->. }
  eexists i, _, _. split; [exact E|]. split_and!; simpl.
  - by eexists _, _, _.
  - done.
  - done.
  - done.
  - done.
  - rewrite Hstat; [done|]. intros Hp.
    destruct input as [|a inp]; [done|]. simpl in Hin.
    by rewrite (Hfresh _ Hp) in Hin.
  - rewrite Hstat by done. unfold is_dir in Hout.
    by destruct (stat (fs w0) out) as [[|?]|].
  - unfold is_dir in *. rewrite Hstat; [done|].
    intros Hp. by apply under_tmp_snoc in Hp as [_ ?].
Qed.

Lemma main_ocr_copies_original args s out w b e :
  arg_ocr args = true →
  pdf_path s = arg_input args →
  stat (fs w) (arg_input args) = Some (File b) →
  ocrmypdf_ocr (OcrOptions "chi_sim+eng" true false false) b = Raise e →
  stat (fs w) out = Some Dir →
  is_dir (fs w) (out // ("ocr_" +:+ path_name (arg_input args))) = false →
  ∃ w', main_ocr args s out w = (Return tt, w')
    ∧ fs w' = <[out // ("ocr_" +:+ path_name (arg_input args)) := File b]> (fs w)
    ∧ (ERROR, "OCR 处理失败: " +:+ exn_msg e) ∈ log w'.
Proof.
  intros Hflag Hs Hin Hfail Hout Hdst. unfold main_ocr. rewrite Hflag.
  erewrite bind_Return by reflexivity. cbv beta.
  erewrite bind_Return; last first.
  { apply (perform_ocr_fails _ _ b e); [simpl; by rewrite Hs|done]. }
  cbv beta. erewrite bind_Return by reflexivity. cbv beta. simpl.
  rewrite Hs. unfold exists_ at 1. rewrite Hin.
  erewrite bind_Return; last first.
  { apply (copy2_ok _ _ _ b); simpl; [done..| |by rewrite parent_snoc].
    intros Heq. rewrite Heq, name_snoc in Heq.
    apply snoc_inj in Heq as [_ Heq]. by apply prefix_ocr_name_ne in Heq. }
  eexists. split; [reflexivity|]. simpl. split; [done|].
  rewrite !elem_of_app, !list_elem_of_singleton. left. by right.
Qed.

Lemma run_ocr_copies_original self s w b e :
  option_get (wt_options self) "ocr" = true →
  pdf_path s = wt_pdf_path self →
  stat (fs w) (wt_pdf_path self) = Some (File b) →
  ocrmypdf_ocr (OcrOptions "chi_sim+eng" true false false) b = Raise e →
  stat (fs w) (wt_output_dir self) = Some Dir →
  is_dir (fs w) (wt_output_dir self // ("ocr_" +:+ path_name (wt_pdf_path self)))
  = false →
  ∃ w', run_ocr self s w = (Return tt, w')
    ∧ fs w' = <[wt_output_dir self // ("ocr_" +:+ path_name (wt_pdf_path self))
                := File b]> (fs w)
    ∧ (ERROR, "OCR 处理失败: " +:+ exn_msg e) ∈ log w'.
Proof.
  intros Hflag Hs Hin Hfail Hout Hdst. unfold run_ocr. rewrite Hflag.
  erewrite bind_Return by reflexivity. cbv beta.
  erewrite bind_Return; last first.
  { apply (perform_ocr_fails _ _ b e); [simpl; by rewrite Hs|done]. }
  cbv beta. erewrite bind_Return by reflexivity. cbv beta. simpl.
  rewrite Hs. unfold exists_ at 1. rewrite Hin.
  erewrite bind_Return; last first.
  { apply (copy2_ok _ _ _ b); simpl; [done..| |by rewrite parent_snoc].
    intros Heq. rewrite Heq, name_snoc in Heq.
    apply snoc_inj in Heq as [_ Heq]. by apply prefix_ocr_name_ne in Heq. }
  eexists. split; [reflexivity|]. simpl. split; [done|].
  rewrite !elem_of_app, !list_elem_of_singleton. by right.
Qed.
End ocr_block.

Lemma fs_lookup_of_stat (m : gmap path node) p x :
  stat m p = Some (File x) → m !! p = Some (File x).
Proof. by destruct p. Qed.

(** C10: when the OCR engine raises on the source bytes, both front ends,
    asked for OCR, end with a file [ocr_<name of the source>] in the
    destination directory that holds the bytes of the original source, and
    the OCR failure is in the log.  For [cli.main] the destination directory
    is the one [setup_output_dir] returns; for the GUI worker it is the
    existing directory it was given.  In both cases the destination name is
    assumed not to be a directory already. *)
Theorem C10_ocr_output_is_the_original `{L : Libs} (b : bytes) (e : exn) :
  ocrmypdf_ocr (OcrOptions "chi_sim+eng" true false false) b = Raise e →
  (∀ args w out w0,
     stat (fs w) (arg_input args) = Some (File b) →
     arg_ocr (resolve_flags args) = true →
     setup_output_dir (arg_output args) w = (Return out, w0) →
     is_dir (fs w) (out // ("ocr_" +:+ path_name (arg_input args))) = false →
     ∃ code w',
       main args w = (Return code, w')
       ∧ fs w' !! (out // ("ocr_" +:+ path_name (arg_input args)))
         = Some (File b)
       ∧ (ERROR, "OCR 处理失败: " +:+ exn_msg e) ∈ log w')
  ∧ (∀ self w,
     stat (fs w) (wt_pdf_path self) = Some (File b) →
     option_get (wt_options self) "ocr" = true →
     is_dir (fs w) (wt_output_dir self) = true →
     is_dir (fs w)
       (wt_output_dir self // ("ocr_" +:+ path_name (wt_pdf_path self)))
     = false →
     ∃ w',
       WorkerThread_run self w = (Return tt, w')
       ∧ fs w' !! (wt_output_dir self
                     // ("ocr_" +:+ path_name (wt_pdf_path self)))
         = Some (File b)
       ∧ (ERROR, "OCR 处理失败: " +:+ exn_msg e) ∈ log w').
Proof.
  intros Hfail. split.
  - intros args w out w0 Hin Hflag Hsetup Hdst.
    set (dst := out // ("ocr_" +:+ path_name (arg_input args))) in *.
    destruct (setup_output_dir_post _ _ _ _ Hsetup)
      as (_ & Hout0 & _ & Hmono & Hframe).
    assert (stat (fs w0) (arg_input args) = Some (File b)) as Hin0.
    { destruct (arg_input args) as [|a inp] eqn:Ei; [done|]. simpl in *.
      by apply Hmono. }
    assert (is_dir (fs w0) dst = false) as Hdst0.
    { unfold is_dir in *. subst dst. rewrite stat_snoc in *.
      rewrite Hframe; [done|]. apply prefix_snoc_not. }
    destruct (init_before_copy w0 _ b out _ Hin0 Hout0 Hdst0)
      as (i & s & w1 & Einit & Hc & Hpdf & Htd & Hnu & _ & Hin1 & Hout1 & Hdst1).
    destruct (main_ocr_copies_original (resolve_flags args) s out w1 b e)
      as (w2 & Eocr & Hfs2 & Hlog2);
      rewrite ?resolve_flags_input; try done.
    destruct (try_except
                (main_after_ocr (resolve_flags args) s out)
                (λ e0, logger ERROR ("处理过程中出现错误: " +:+ exn_msg e0);;
                       mret 1) w2) as [r w3] eqn:Erest.
    assert (∃ code, r = Return code) as [code ->].
    { destruct (no_raise_try (main_after_ocr (resolve_flags args) s out)
                  (λ e0, logger ERROR ("处理过程中出现错误: " +:+ exn_msg e0);;
                         mret 1)) with (w := w2) as (c & w3' & E3).
      - intros e0. auto with no_raise.
      - rewrite E3 in Erest. simplify_eq. by eexists. }
    exists code, w3. split_and!.
    + unfold main. erewrite bind_Return by reflexivity. cbv beta zeta.
      assert (exists_ (fs w) (arg_input args) = true) as ->
        by (unfold exists_; by rewrite Hin).
      cbn [negb]. erewrite bind_Return by exact Hsetup. cbv beta.
      rewrite <-Erest. unfold try_except.
      erewrite bind_Return by exact Einit. cbv beta.
      erewrite bind_Return by exact Eocr. done.
    + assert (modifies (rest_footprint (temp_dir s) out
                          ("tables_" +:+ path_stem (arg_input (resolve_flags args))
                             +:+ ".xlsx"))
                (try_except
                   (main_after_ocr (resolve_flags args) s out)
                   (λ e0, logger ERROR ("处理过程中出现错误: " +:+ exn_msg e0);;
                          mret 1))) as Hmod.
      { apply modifies_try; [by apply modifies_main_after_ocr|].
        intros e0. auto with modifies. }
      rewrite resolve_flags_input in Hfs2.
      rewrite (Hmod _ _ _ Erest).
      * rewrite Hfs2. apply lookup_insert_eq.
      * rewrite Htd. subst dst. by apply ocr_output_not_in_rest; rewrite <-Htd.
    + assert (extends_log
                (try_except
                   (main_after_ocr (resolve_flags args) s out)
                   (λ e0, logger ERROR ("处理过程中出现错误: " +:+ exn_msg e0);;
                          mret 1))) as Hext.
      { apply extends_log_try; [apply extends_log_main_after_ocr|].
        intros e0. auto with extends_log. }
      destruct (Hext _ _ _ Erest) as [l ->]. apply elem_of_app. by left.
  - intros self w Hin Hflag Hout Hdst.
    set (out := wt_output_dir self) in *.
    set (dst := out // ("ocr_" +:+ path_name (wt_pdf_path self))) in *.
    destruct (init_before_copy w _ b out _ Hin Hout Hdst)
      as (i & s & w1 & Einit & Hc & Hpdf & Htd & Hnu & _ & Hin1 & Hout1 & Hdst1).
    destruct (run_ocr_copies_original self s w1 b e)
      as (w2 & Eocr & Hfs2 & Hlog2); try done.
    destruct (try_except
                (run_after_ocr self s)
                (λ e0, logger ERROR ("处理过程中出现错误: " +:+ exn_msg e0);;
                       emit (error (exn_msg e0))) w2) as [r w3] eqn:Erest.
    assert (r = Return tt) as ->.
    { destruct (no_raise_try (run_after_ocr self s)
                  (λ e0, logger ERROR ("处理过程中出现错误: " +:+ exn_msg e0);;
                         emit (error (exn_msg e0)))) with (w := w2)
        as ([] & w3' & E3).
      - intros e0. apply no_raise_bind; [apply no_raise_logger|].
        intros _ w'. by eexists _, _.
      - rewrite E3 in Erest. by simplify_eq. }
    exists w3. split_and!.
    + unfold WorkerThread_run. rewrite <-Erest. unfold try_except.
      erewrite bind_Return by exact Einit. cbv beta.
      erewrite bind_Return by exact Eocr. done.
    + assert (modifies (rest_footprint (temp_dir s) out
                          ("tables_" +:+ path_stem (wt_pdf_path self) +:+ ".xlsx"))
                (try_except
                   (run_after_ocr self s)
                   (λ e0, logger ERROR ("处理过程中出现错误: " +:+ exn_msg e0);;
                          emit (error (exn_msg e0))))) as Hmod.
      { apply modifies_try; [by apply modifies_run_after_ocr|].
        intros e0. auto with modifies. }
      rewrite (Hmod _ _ _ Erest).
      * rewrite Hfs2. apply lookup_insert_eq.
      * rewrite Htd. subst dst. by apply ocr_output_not_in_rest; rewrite <-Htd.
    + assert (extends_log
                (try_except
                   (run_after_ocr self s)
                   (λ e0, logger ERROR ("处理过程中出现错误: " +:+ exn_msg e0);;
                          emit (error (exn_msg e0))))) as Hext.
      { apply extends_log_try; [apply extends_log_run_after_ocr|].
        intros e0. auto with extends_log. }
      destruct (Hext _ _ _ Erest) as [l ->]. apply elem_of_app. by left.
Qed.

Lemma C10_ocr_output_is_the_original_witness :
  (∃ code w',
     @main demo_libs_ocr_fails demo_args demo_world = (Return code, w')
     ∧ fs w' !! (demo_out // ("ocr_" +:+ path_name (arg_input demo_args)))
       = Some (File "%PDF-1.4 scan")
     ∧ (ERROR, "OCR 处理失败: tesseract not found") ∈ log w')
  ∧ (∃ w',
     @WorkerThread_run demo_libs_ocr_fails demo_worker demo_world
     = (Return tt, w')
     ∧ fs w' !! (wt_output_dir demo_worker
                   // ("ocr_" +:+ path_name (wt_pdf_path demo_worker)))
       = Some (File "%PDF-1.4 scan")
     ∧ (ERROR, "OCR 处理失败: tesseract not found") ∈ log w').
Proof.
  destruct (@C10_ocr_output_is_the_original demo_libs_ocr_fails
              "%PDF-1.4 scan" (Exn LibraryError "tesseract not found")
              eq_refl) as [Hcli Hgui].
  split.
  - apply (Hcli demo_args demo_world demo_out demo_world0).
    + vm_compute. reflexivity.
    + vm_compute. reflexivity.
    + vm_compute. reflexivity.
    + vm_compute. reflexivity.
  - apply (Hgui demo_worker demo_world).
    + vm_compute. reflexivity.
    + vm_compute. reflexivity.
    + vm_compute. reflexivity.
    + vm_compute. reflexivity.
Defined.

(** ** [cli.main] block by block *)

Lemma log_adds_prefix w w' r : log_adds w w' r → log w `prefix_of` log w'.
Proof. intros (l & -> & _). by eexists. Qed.

Lemma log_adds_before w w1 w2 r :
  log w `prefix_of` log w1 → log_adds w1 w2 r → log_adds w w2 r.
Proof.
  intros [l1 H1] (l2 & H2 & Hr). exists (l1 ++ l2). split.
  - by rewrite H2, H1, app_assoc.
  - apply elem_of_app. by right.
Qed.

Lemma log_adds_after w w1 w2 r :
  log_adds w w1 r → log w1 `prefix_of` log w2 → log_adds w w2 r.
Proof.
  intros (l1 & H1 & Hr) [l2 H2]. exists (l1 ++ l2). split.
  - by rewrite H2, H1, app_assoc.
  - apply elem_of_app. by left.
Qed.

Lemma glob_star_under (m : gmap path node) (d p : path) :
  p ∈ glob_star m d → ∃ n, p = d // n.
Proof.
  unfold glob_star. intros [[Hne Hp] _]%list_elem_of_filter.
  destruct (exists_last Hne) as (p' & x & ->).
  exists x. unfold path_parent in Hp. rewrite removelast_last in Hp. by subst.
Qed.

Section front_invariant.
Context `{L : Libs}.
Variables (s : PDFParser) (out : path) (i : nat).
Hypothesis Hc : constructed s.
Hypothesis Htd : temp_dir s = gettempdir // tmp_name i.
Hypothesis Hnu : ¬ temp_dir s `prefix_of` out.

Lemma td_not_under_images : ¬ temp_dir s `prefix_of` out // "images".
Proof using All.
  rewrite Htd in *. intros H. by apply under_tmp_snoc in H as [_ ?].
Qed.

Lemma td_not_under_image_file (x : string) :
  ¬ temp_dir s `prefix_of` out // "images" // x.
Proof using All.
  intros H. pose proof td_not_under_images as Hi. rewrite Htd in *.
  apply under_tmp_snoc in H as [H _]; [|done].
  unfold gettempdir in H. by apply (snoc_inj _ [] "images" "tmp") in H as [_ ?].
Qed.

Lemma td_not_under_ocr (x : string) :
  ¬ temp_dir s `prefix_of` out // ("ocr_" +:+ x).
Proof using All.
  rewrite Htd in *. intros H. by apply under_tmp_snoc in H as [_ ?].
Qed.

Lemma td_not_under_text : ¬ temp_dir s `prefix_of` out // "extracted_text.txt".
Proof using All.
  rewrite Htd in *. intros H. by apply under_tmp_snoc in H as [_ ?].
Qed.

Lemma td_not_under_tables (x : string) :
  ¬ temp_dir s `prefix_of` out // ("tables_" +:+ x).
Proof using All.
  rewrite Htd in *. intros H. by apply under_tmp_snoc in H as [_ ?].
Qed.

(** A directory entry of the destination is not where a file is to go. *)
Lemma dest_inv_not_dir m q :
  dest_inv out (temp_dir s) m → out `prefix_of` q →
  q ≠ out → q ≠ out // "images" → ¬ temp_dir s `prefix_of` q →
  is_dir m q = false.
Proof using All.
  intros (_ & Hf & _) Hq H1 H2 H3. unfold is_dir.
  destruct (stat m q) as [[|?]|] eqn:E; try done.
  destruct q as [|a q'].
  { destruct out; [done|]. by destruct Hq as [k Hk]. }
  simpl in E. by destruct (Hf _ _ E Hq eq_refl) as [?|[?|?]].
Qed.

(** Changes confined to the scratch directory that keep it sound. *)
Lemma front_inv_scratch (m m' : gmap path node) :
  front_inv s out m → scratch_inv s m' →
  (∀ p, ¬ temp_dir s `prefix_of` p → m' !! p = m !! p) →
  front_inv s out m'.
Proof using All.
  intros (Hs & (Ho & Hf & Hi) & Hp) Hs' Hsame.
  assert (∀ p, ¬ temp_dir s `prefix_of` p → stat m' p = stat m p) as Hstat.
  { intros [|a p] Hn; [done|]. simpl. by apply Hsame. }
  split_and!; [done|split_and!|].
  - by rewrite Hstat.
  - intros p n Hn Hpre ->.
    destruct (decide (temp_dir s `prefix_of` p)) as [|Hnp]; [auto|].
    rewrite Hsame in Hn by done. by apply (Hf p Dir).
  - unfold is_file in *. rewrite Hstat; [done|apply td_not_under_images].
  - unfold is_file in *. rewrite Hstat; [done|].
    by destruct (constructed_inv s Hc) as (_ & _ & _ & ?).
Qed.

Lemma front_inv_op o src m :
  front_inv s out m → front_inv s out (insert_all (op_writes s src o) m).
Proof using All.
  intros HJ. apply (front_inv_scratch m); [done| |].
  - apply op_writes_inv; [done|]. by destruct HJ.
  - intros p Hp. apply lookup_insert_all_ne.
    intros Hk%op_writes_keys. by apply (op_key_under o s p Hc) in Hk as [? _].
Qed.

(** A regular file written in the destination, outside the scratch tree. *)
Lemma front_inv_insert_file m q c :
  front_inv s out m → ¬ temp_dir s `prefix_of` q → q ≠ out →
  q ≠ out // "images" →
  front_inv s out (<[q := File c]> m).
Proof using All.
  intros (Hs & (Ho & Hf & Hi) & Hp) H1 H2 H3. split_and!; [|split_and!|].
  - apply (dir_inv_outside _ m); [done|]. intros p Hpre.
    apply lookup_insert_ne. by intros ->.
  - by rewrite stat_insert_ne.
  - by apply map_Forall_insert_2.
  - unfold is_file in *. by rewrite stat_insert_ne.
  - unfold is_file in *. destruct (decide (pdf_path s = q)) as [Heq|Hne].
    + rewrite Heq in *. destruct q; [by simpl in Hp|]. simpl.
      by rewrite lookup_insert_eq.
    + by rewrite stat_insert_ne.
Qed.

Lemma front_inv_insert_images m :
  front_inv s out m → front_inv s out (<[out // "images" := Dir]> m).
Proof using All.
  intros (Hs & (Ho & Hf & Hi) & Hp). split_and!; [|split_and!|].
  - apply (dir_inv_outside _ m); [done|]. intros p Hpre.
    apply lookup_insert_ne. intros <-. by apply td_not_under_images.
  - rewrite stat_insert_ne; [done|]. intros Heq.
    by apply eq_sym, snoc_ne_self in Heq.
  - apply map_Forall_insert_2; [auto|done].
  - unfold is_file. by rewrite stat_snoc, lookup_insert_eq.
  - unfold is_file in *. rewrite stat_insert_ne; [done|].
    intros Heq. rewrite Heq in Hp. by rewrite Hi in Hp.
Qed.
End front_invariant.

Section main_blocks.
Context `{L : Libs}.
Variables (s : PDFParser) (out : path) (i : nat) (args : Args).
Hypothesis Hc : constructed s.
Hypothesis Htd : temp_dir s = gettempdir // tmp_name i.
Hypothesis Hnu : ¬ temp_dir s `prefix_of` out.
Hypothesis Hin : pdf_path s = arg_input args.

(** A parser operation between two blocks. *)
Lemma front_op o w :
  front_inv s out (fs w) →
  let src := stat (fs w) (pdf_path s) in
  ∃ w', run_op o s w = (Return (op_return s src o), w')
    ∧ fs w' = insert_all (op_writes s src o) (fs w)
    ∧ log w' = log w ++ op_logs s src o
    ∧ front_inv s out (fs w').
Proof.
  intros HJ src. eexists. split; [apply run_op_spec; [done|by destruct HJ]|].
  simpl. split_and!; [done..|]. by apply (front_inv_op s out i Hc Htd Hnu).
Qed.

(** Copying a regular file to a name directly inside the destination. *)
Lemma copy_out_ok w r (n : string) c :
  front_inv s out (fs w) → stat (fs w) r = Some (File c) →
  r ≠ out // n → ¬ temp_dir s `prefix_of` out // n → n ≠ "images" →
  copy2 r (out // n) w = (Return tt, set_fs (<[out // n := File c]> (fs w)) w)
  ∧ front_inv s out (<[out // n := File c]> (fs w)).
Proof.
  intros HJ Hr Hne Hnt Hni. split.
  - apply copy2_ok; [done| |done|].
    + apply (dest_inv_not_dir s out i Hc Htd Hnu (fs w)); [by destruct HJ as (_ & ? & _)|..].
      * apply prefix_snoc_self.
      * apply snoc_ne_self.
      * intros Heq. by apply snoc_inj in Heq as [_ ?].
      * done.
    + rewrite parent_snoc. by destruct HJ as (_ & (? & _) & _).
  - apply (front_inv_insert_file s out i Hc Htd Hnu); [done..|apply snoc_ne_self|].
    intros Heq. by apply snoc_inj in Heq as [_ ?].
Qed.

Lemma main_ocr_runs w :
  arg_ocr args = true → front_inv s out (fs w) →
  ∃ w', main_ocr args s out w = (Return tt, w')
    ∧ front_inv s out (fs w')
    ∧ log_adds w w' (INFO, "开始执行 OCR 处理...").
Proof.
  intros Hflag HJ. unfold main_ocr. rewrite Hflag.
  erewrite bind_Return by reflexivity. cbv beta.
  set (w0 := add_log _ w).
  destruct (front_op Ocr w0 HJ) as (w1 & E & Hfs & Hlog & HJ1).
  cbv zeta in E. apply run_op_Ocr in E.
  erewrite bind_Return by exact E. cbv beta.
  erewrite bind_Return by reflexivity. cbv beta.
  set (r := match ocr_result s _ with Return _ => ocr_path s | Raise _ => pdf_path s end).
  set (dn := "ocr_" +:+ path_name (arg_input args)).
  assert (∃ c, stat (fs w1) r = Some (File c) ∧ r ≠ out // dn) as (c & Hr & Hne).
  { destruct (constructed_inv s Hc) as (_ & _ & Ho & _).
    subst r. unfold op_writes in Hfs.
    destruct (ocr_result s _) as [o'|e].
    - exists o'. split.
      + rewrite Hfs, Ho, stat_snoc. apply lookup_insert_eq.
      + intros Heq. apply (td_not_under_ocr s out i Hc Htd Hnu (path_name (arg_input args))).
        fold dn. rewrite <-Heq, Ho. apply prefix_snoc_self.
    - destruct HJ1 as (_ & _ & Hf). unfold is_file in Hf.
      destruct (stat (fs w1) (pdf_path s)) as [[|c]|] eqn:Es; try done.
      exists c. split; [done|]. rewrite Hin. intros Heq.
      subst dn. rewrite Heq, name_snoc in Heq.
      apply snoc_inj in Heq as [_ Heq]. by apply prefix_ocr_name_ne in Heq. }
  unfold exists_. rewrite Hr.
  destruct (copy_out_ok w1 r dn c HJ1 Hr Hne) as [Ecp HJ2].
  { apply (td_not_under_ocr s out i Hc Htd Hnu). }
  { done. }
  erewrite bind_Return by exact Ecp.
  eexists. split; [reflexivity|]. split; [done|].
  exists ((INFO, "执行OCR处理...") :: op_logs s (stat (fs w0) (pdf_path s)) Ocr
          ++ [(INFO, "OCR处理后的PDF已保存到: " +:+ msg_of (out // dn))]).
  split.
  - simpl. rewrite Hlog. subst w0. simpl. by rewrite <-!app_assoc.
  - apply elem_of_cons. right. apply elem_of_app. left.
    unfold op_logs. apply elem_of_cons. by left.
Qed.

Lemma main_text_runs w :
  arg_extract_text args = true → front_inv s out (fs w) →
  ∃ w', main_text args s out w = (Return tt, w')
    ∧ front_inv s out (fs w')
    ∧ log_adds w w' (INFO, "使用 PDFMiner 提取文本...").
Proof.
  intros Hflag HJ. unfold main_text. rewrite Hflag.
  erewrite bind_Return by reflexivity. cbv beta.
  set (w0 := add_log _ w).
  destruct (front_op Text w0 HJ) as (w1 & E & Hfs & Hlog & HJ1).
  cbv zeta in E. apply run_op_Text in E.
  erewrite bind_Return by exact E. cbv beta.
  set (text := match text_result s _ with Return t => t | Raise _ => "" end).
  assert (log_adds w w1 (INFO, "使用 PDFMiner 提取文本...")) as Hadd.
  { exists ((INFO, "提取文本...") :: op_logs s (stat (fs w0) (pdf_path s)) Text).
    split.
    - rewrite Hlog. subst w0. simpl. by rewrite <-app_assoc.
    - apply elem_of_cons. right. unfold op_logs. apply elem_of_cons. by left. }
  unfold save_text. case_bool_decide as Ht.
  - erewrite bind_Return by reflexivity. eexists. split; [reflexivity|].
    split; [done|]. apply (log_adds_after _ w1); [done|]. simpl. by eexists.
  - assert (write_file (out // "extracted_text.txt") text w1
            = (Return tt,
               set_fs (<[out // "extracted_text.txt" := File text]> (fs w1)) w1))
      as Ew.
    { apply write_file_ok.
      - rewrite parent_snoc. by destruct HJ1 as (_ & (? & _) & _).
      - assert (is_dir (fs w1) (out // "extracted_text.txt") = false) as Hd.
        { apply (dest_inv_not_dir s out i Hc Htd Hnu (fs w1));
            [by destruct HJ1 as (_ & ? & _)|apply prefix_snoc_self
            |apply snoc_ne_self| |].
          - intros Heq. by apply snoc_inj in Heq as [_ ?].
          - apply (td_not_under_text s out i Hc Htd Hnu). }
        unfold is_dir in Hd.
        by destruct (stat (fs w1) (out // "extracted_text.txt")) as [[|?]|]. }
    erewrite bind_Return; last first.
    { erewrite bind_Return by exact Ew. erewrite bind_Return by reflexivity.
      reflexivity. }
    eexists. split; [reflexivity|]. split.
    + simpl. apply (front_inv_insert_file s out i Hc Htd Hnu); try done.
      * apply (td_not_under_text s out i Hc Htd Hnu).
      * apply snoc_ne_self.
      * intros Heq. by apply snoc_inj in Heq as [_ ?].
    + apply (log_adds_after _ w1); [done|]. simpl. by eexists.
Qed.
End main_blocks.

Section main_blocks_copy.
Context `{L : Libs}.
Variables (s : PDFParser) (out : path) (i : nat) (args : Args).
Hypothesis Hc : constructed s.
Hypothesis Htd : temp_dir s = gettempdir // tmp_name i.
Hypothesis Hnu : ¬ temp_dir s `prefix_of` out.
Hypothesis Hin : pdf_path s = arg_input args.

(** The loop of [copy_files] over entries of the scratch directory. *)
Lemma copy_loop_ok (items : list path) w :
  Forall (λ it, temp_dir s `prefix_of` it) items →
  front_inv s out (fs w) → fs w !! (out // "images") = Some Dir →
  ∃ w', for_loop items (λ _ item,
          m ← get_fs;
          if is_file m item then copy2 item (out // "images" // path_name item)
          else mret tt) tt w = (Return tt, w')
    ∧ front_inv s out (fs w')
    ∧ fs w' !! (out // "images") = Some Dir
    ∧ log w' = log w.
Proof using All.
  intros Hitems. revert w.
  induction Hitems as [|item items Hit _ IH]; intros w HJ Hd.
  - by exists w.
  - cbn [for_loop].
    destruct (is_file (fs w) item) eqn:Ef.
    + unfold is_file in Ef.
      destruct (stat (fs w) item) as [[|c]|] eqn:Es; try done.
      set (dst := out // "images" // path_name item).
      assert (¬ temp_dir s `prefix_of` dst) as Hnt
        by apply (td_not_under_image_file s out i Hc Htd Hnu).
      assert (copy2 item dst w
              = (Return tt, set_fs (<[dst := File c]> (fs w)) w)) as Ecp.
      { apply copy2_ok; [done| | |].
        - apply (dest_inv_not_dir s out i Hc Htd Hnu (fs w));
            [by destruct HJ as (_ & ? & _)| | | |done].
          + etrans; apply prefix_snoc_self.
          + apply snoc_snoc_ne_self.
          + apply snoc_ne_self.
        - intros Heq. apply Hnt. by rewrite <-Heq.
        - subst dst. by rewrite parent_snoc, stat_snoc. }
      destruct (IH (set_fs (<[dst := File c]> (fs w)) w))
        as (w' & E' & HJ' & Hd' & Hl').
      { simpl. apply (front_inv_insert_file s out i Hc Htd Hnu); try done.
        - apply snoc_snoc_ne_self.
        - apply snoc_ne_self. }
      { simpl. rewrite lookup_insert_ne; [done|]. apply snoc_ne_self. }
      exists w'. split; [|done].
      erewrite bind_Return; [exact E'|].
      erewrite bind_Return by reflexivity. cbv beta. unfold is_file.
      rewrite Es. exact Ecp.
    + destruct (IH w HJ Hd) as (w' & E' & HJ' & Hd' & Hl').
      exists w'. split; [|done].
      erewrite bind_Return; [exact E'|].
      erewrite bind_Return by reflexivity. cbv beta. by rewrite Ef.
Qed.

Lemma copy_files_ok w :
  front_inv s out (fs w) →
  ∃ w', copy_files (images_dir s) (out // "images") w = (Return tt, w')
    ∧ front_inv s out (fs w')
    ∧ log w `prefix_of` log w'.
Proof using All.
  intros HJ. unfold copy_files.
  erewrite bind_Return by reflexivity. cbv beta.
  destruct (exists_ (fs w) (images_dir s)); cbn [negb]; [|by exists w].
  erewrite bind_Return; last first.
  { apply Path_mkdir_exist_ok.
    - apply snoc_ne_nil.
    - rewrite parent_snoc. by destruct HJ as (_ & (? & _) & _).
    - by destruct HJ as (_ & (_ & _ & ?) & _). }
  cbv beta. erewrite bind_Return by reflexivity. cbv beta.
  set (w1 := set_fs _ w).
  destruct (copy_loop_ok (glob_star (fs w1) (images_dir s)) w1)
    as (w2 & E2 & HJ2 & _ & Hl2).
  { apply Forall_forall. intros p [n ->]%glob_star_under.
    etrans; apply prefix_snoc_self. }
  { apply (front_inv_insert_images s out i Hc Htd Hnu). exact HJ. }
  { simpl. apply lookup_insert_eq. }
  erewrite bind_Return by exact E2.
  eexists. split; [reflexivity|]. split; [done|].
  simpl. rewrite Hl2. by eexists.
Qed.

Lemma main_images_runs w :
  arg_extract_images args = true → front_inv s out (fs w) →
  ∃ w', main_images args s out w = (Return tt, w')
    ∧ front_inv s out (fs w')
    ∧ log_adds w w' (INFO, "开始提取图片...").
Proof using All.
  intros Hflag HJ. unfold main_images. rewrite Hflag.
  erewrite bind_Return by reflexivity. cbv beta.
  set (w0 := add_log _ w).
  destruct (front_op s out i Hc Htd Hnu Images w0 HJ) as (w1 & E & Hfs & Hlog & HJ1).
  cbv zeta in E. apply run_op_Images in E.
  erewrite bind_Return by exact E. cbv beta.
  assert (log_adds w w1 (INFO, "开始提取图片...")) as Hadd.
  { exists ((INFO, "提取图片...") :: op_logs s (stat (fs w0) (pdf_path s)) Images).
    split.
    - rewrite Hlog. subst w0. simpl. by rewrite <-app_assoc.
    - apply elem_of_cons. right. unfold op_logs. apply elem_of_cons. by left. }
  destruct (images_plan s _).2.
  - by exists w1.
  - destruct (copy_files_ok w1 HJ1) as (w2 & E2 & HJ2 & Hl2).
    exists w2. split_and!; [done..|]. by apply (log_adds_after _ w1).
Qed.

Lemma main_tables_runs w :
  arg_extract_tables args = true → front_inv s out (fs w) →
  ∃ w', main_tables args s out w = (Return tt, w')
    ∧ front_inv s out (fs w')
    ∧ log_adds w w' (INFO, "开始提取表格...").
Proof using All.
  intros Hflag HJ. unfold main_tables. rewrite Hflag.
  erewrite bind_Return by reflexivity. cbv beta.
  set (w0 := add_log _ w).
  destruct (front_op s out i Hc Htd Hnu Tables w0 HJ) as (w1 & E & Hfs & Hlog & HJ1).
  cbv zeta in E. apply run_op_Tables in E.
  erewrite bind_Return by exact E. cbv beta.
  assert (log_adds w w1 (INFO, "开始提取表格...")) as Hadd.
  { exists ((INFO, "提取表格...") :: op_logs s (stat (fs w0) (pdf_path s)) Tables).
    split.
    - rewrite Hlog. subst w0. simpl. by rewrite <-app_assoc.
    - apply elem_of_cons. right. unfold op_logs. apply elem_of_cons. by left. }
  unfold op_writes in Hfs.
  destruct (tables_result s _) as [[|t ts]|e]; try by exists w1.
  erewrite bind_Return by reflexivity. cbv beta.
  set (x := xlsx_of_sheets _) in Hfs.
  assert (stat (fs w1) (excel_path s) = Some (File x)) as Hx.
  { rewrite Hfs. unfold excel_path. rewrite stat_snoc. apply lookup_insert_eq. }
  unfold exists_. rewrite Hx.
  set (dn := "tables_" +:+ path_stem (arg_input args) +:+ ".xlsx").
  destruct (copy_out_ok s out i Hc Htd Hnu w1 (excel_path s) dn x HJ1 Hx)
    as [Ecp HJ2].
  { intros Heq. apply (td_not_under_tables s out i Hc Htd Hnu
                         (path_stem (arg_input args) +:+ ".xlsx")).
    fold dn. rewrite <-Heq. apply prefix_snoc_self. }
  { apply (td_not_under_tables s out i Hc Htd Hnu). }
  { done. }
  erewrite bind_Return by exact Ecp.
  eexists. split; [reflexivity|]. split; [done|].
  apply (log_adds_after _ w1); [done|]. simpl. by eexists.
Qed.
End main_blocks_copy.

(** ** [cli.main] without operation flags *)

Lemma resolve_flags_none args :
  arg_ocr args = false → arg_extract_text args = false →
  arg_extract_images args = false → arg_extract_tables args = false →
  arg_ocr (resolve_flags args) = true
  ∧ arg_extract_text (resolve_flags args) = true
  ∧ arg_extract_images (resolve_flags args) = true
  ∧ arg_extract_tables (resolve_flags args) = true.
Proof. unfold resolve_flags. by intros -> -> -> ->. Qed.

(** The constructor establishes the invariant of [main]. *)
Lemma init_front_inv w0 input out :
  is_file (fs w0) input = true → dir_inv out (fs w0) →
  ∃ i s w1,
    PDFParser_init input w0 = (Return s, w1)
    ∧ constructed s
    ∧ pdf_path s = input
    ∧ temp_dir s = gettempdir // tmp_name i
    ∧ ¬ temp_dir s `prefix_of` out
    ∧ log w1 = log w0
    ∧ front_inv s out (fs w1).
Proof.
  intros Hin Hout.
  assert (exists_ (fs w0) input = true) as Hex.
  { unfold exists_, is_file in *. by destruct (stat _ _). }
  destruct (PDFParser_init_ok input w0 Hex) as (i & E & Hfresh). cbv zeta in *.
  set (td := gettempdir // tmp_name i) in *.
  assert (is_dir (fs w0) out = true) as Hd.
  { unfold is_dir. by rewrite (dir_inv_stat _ _ Hout). }
  pose proof (fresh_not_under _ _ _ Hfresh Hd) as Hnu.
  assert (∀ p, ¬ td `prefix_of` p →
            stat (<[td := Dir]> (fs w0)) p = stat (fs w0) p) as Hstat.
  { intros p Hp. apply stat_insert_ne. by intros ->. }
  assert (¬ td `prefix_of` input) as Hninp.
  { intros Hp. unfold is_file in Hin. destruct input as [|a inp]; [done|].
    simpl in Hin. by rewrite (Hfresh _ Hp) in Hin. }
  eexists i, _, _. split; [exact E|]. split_and!; simpl; try done.
  - by eexists _, _, _.
  - split_and!.
    + split_and!; simpl.
      * apply lookup_insert_eq.
      * apply map_Forall_insert_2; [auto|].
        intros p n Hp Hpre _. by rewrite (Hfresh _ Hpre) in Hp.
      * unfold is_file. rewrite stat_snoc, lookup_insert_ne;
          [|intros H; by apply eq_sym, snoc_ne_self in H].
        by rewrite Hfresh by apply prefix_snoc_self.
    + destruct Hout as (Ho & Hf & Hi). split_and!; simpl.
      * rewrite Hstat by done. by destruct out.
      * apply map_Forall_insert_2; [auto|].
        intros p n Hp Hpre ->. destruct (Hf p Dir Hp Hpre eq_refl); auto.
      * unfold is_file in *. rewrite Hstat; [done|].
        intros Hp. by apply under_tmp_snoc in Hp as [_ ?].
    + unfold is_file in *. simpl. by rewrite Hstat.
Qed.

Section main_run.
Context `{L : Libs}.

Lemma main_after_ocr_runs s out i args w :
  constructed s → temp_dir s = gettempdir // tmp_name i →
  ¬ temp_dir s `prefix_of` out → pdf_path s = arg_input args →
  arg_extract_text args = true → arg_extract_images args = true →
  arg_extract_tables args = true →
  front_inv s out (fs w) →
  ∃ w', main_after_ocr args s out w = (Return 0, w')
    ∧ log_adds w w' (INFO, "使用 PDFMiner 提取文本...")
    ∧ log_adds w w' (INFO, "开始提取图片...")
    ∧ log_adds w w' (INFO, "开始提取表格...").
Proof.
  intros Hc Htd Hnu Hin Ft Fi Fb HJ. unfold main_after_ocr.
  destruct (main_text_runs s out i args Hc Htd Hnu w Ft HJ)
    as (w1 & E1 & HJ1 & A1).
  destruct (main_images_runs s out i args Hc Htd Hnu Hin w1 Fi HJ1)
    as (w2 & E2 & HJ2 & A2).
  destruct (main_tables_runs s out i args Hc Htd Hnu Hin w2 Fb HJ2)
    as (w3 & E3 & HJ3 & A3).
  assert (∃ w4, (if negb (arg_keep_temp args) then cleanup s else mret tt) w3
                = (Return tt, w4) ∧ log w3 `prefix_of` log w4)
    as (w4 & E4 & P4).
  { destruct (negb (arg_keep_temp args)).
    - destruct (cleanup_no_raise s w3) as ([] & w4 & E4).
      exists w4. split; [done|]. by apply (extends_log_cleanup s _ _ _ E4).
    - by exists w3. }
  erewrite bind_Return by exact E1. cbv beta.
  erewrite bind_Return by exact E2. cbv beta.
  erewrite bind_Return by exact E3. cbv beta.
  erewrite bind_Return by exact E4. cbv beta.
  erewrite bind_Return by reflexivity.
  eexists. split; [reflexivity|].
  set (w5 := add_log _ w4).
  assert (log w4 `prefix_of` log w5) as P5 by (simpl; by eexists).
  pose proof (log_adds_prefix _ _ _ A1) as P1.
  pose proof (log_adds_prefix _ _ _ A2) as P2.
  pose proof (log_adds_prefix _ _ _ A3) as P3.
  split_and!.
  - apply (log_adds_after _ w1); [done|]. by repeat (etrans; [eassumption|]).
  - apply (log_adds_before _ w1); [done|].
    apply (log_adds_after _ w2); [done|]. by repeat (etrans; [eassumption|]).
  - apply (log_adds_before _ w2); [by etrans|].
    apply (log_adds_after _ w3); [done|]. by etrans.
Qed.
End main_run.

(** C8: the input is an existing regular file, none of [--ocr],
    [--extract-text], [--extract-images], [--extract-tables] is given
    (with or without [--extract-all]), and the output directory that
    [setup_output_dir] returns holds no directory but [images] (and
    [images] is not a regular file).  Then the flag resolution sets all
    four operation flags, [main] returns exit status 0, and during the run
    each of the four parser methods logs its opening record: all four
    operations ran. *)
Theorem C8_no_flag_runs_all `{L : Libs} (args : Args) (w : world)
    (out : path) (w0 : world) :
  is_file (fs w) (arg_input args) = true →
  arg_ocr args = false → arg_extract_text args = false →
  arg_extract_images args = false → arg_extract_tables args = false →
  setup_output_dir (arg_output args) w = (Return out, w0) →
  dir_inv out (fs w0) →
  (arg_ocr (resolve_flags args) = true
   ∧ arg_extract_text (resolve_flags args) = true
   ∧ arg_extract_images (resolve_flags args) = true
   ∧ arg_extract_tables (resolve_flags args) = true)
  ∧ ∃ w', main args w = (Return 0, w')
      ∧ log_adds w w' (INFO, "开始执行 OCR 处理...")
      ∧ log_adds w w' (INFO, "使用 PDFMiner 提取文本...")
      ∧ log_adds w w' (INFO, "开始提取图片...")
      ∧ log_adds w w' (INFO, "开始提取表格...").
Proof.
  intros Hfile F1 F2 F3 F4 Hsetup Hout.
  pose proof (resolve_flags_none args F1 F2 F3 F4) as Hflags.
  split; [done|]. destruct Hflags as (G1 & G2 & G3 & G4).
  destruct (setup_output_dir_post _ _ _ _ Hsetup)
    as (_ & _ & Hlog0 & Hmono & _).
  assert (is_file (fs w0) (arg_input args) = true) as Hfile0.
  { unfold is_file in *. destruct (arg_input args) as [|a inp]; [done|].
    simpl in *. destruct (fs w !! (a :: inp)) as [[|c]|] eqn:E; try done.
    by rewrite (Hmono _ _ E). }
  destruct (init_front_inv w0 _ out Hfile0 Hout)
    as (i & s & w1 & Einit & Hc & Hpdf & Htd & Hnu & Hlog1 & HJ1).
  rewrite <-(resolve_flags_input args) in Hpdf.
  destruct (main_ocr_runs s out i (resolve_flags args) Hc Htd Hnu Hpdf w1 G1 HJ1)
    as (w2 & Eocr & HJ2 & A2).
  destruct (main_after_ocr_runs s out i (resolve_flags args) w2
              Hc Htd Hnu Hpdf G2 G3 G4 HJ2)
    as (w3 & Erest & A3 & A4 & A5).
  exists w3.
  assert (log w `prefix_of` log w1) as P1 by by rewrite Hlog1.
  pose proof (log_adds_prefix _ _ _ A2) as P2.
  split_and!.
  - unfold main. erewrite bind_Return by reflexivity. cbv beta zeta.
    assert (exists_ (fs w) (arg_input args) = true) as ->.
    { unfold exists_, is_file in *. by destruct (stat _ _). }
    cbn [negb]. erewrite bind_Return by exact Hsetup. cbv beta.
    erewrite try_Return; [reflexivity|].
    erewrite bind_Return by exact Einit. cbv beta.
    erewrite bind_Return by exact Eocr. exact Erest.
  - apply (log_adds_before _ w1); [done|].
    apply (log_adds_after _ w2); [done|]. by apply (log_adds_prefix _ _ _ A3).
  - apply (log_adds_before _ w2); [by etrans|done].
  - apply (log_adds_before _ w2); [by etrans|done].
  - apply (log_adds_before _ w2); [by etrans|done].
Qed.

Lemma C8_no_flag_runs_all_witness :
  (arg_ocr (resolve_flags demo_args) = true
   ∧ arg_extract_text (resolve_flags demo_args) = true
   ∧ arg_extract_images (resolve_flags demo_args) = true
   ∧ arg_extract_tables (resolve_flags demo_args) = true)
  ∧ ∃ w', @main demo_libs demo_args demo_world = (Return 0, w')
      ∧ log_adds demo_world w' (INFO, "开始执行 OCR 处理...")
      ∧ log_adds demo_world w' (INFO, "使用 PDFMiner 提取文本...")
      ∧ log_adds demo_world w' (INFO, "开始提取图片...")
      ∧ log_adds demo_world w' (INFO, "开始提取表格...").
Proof.
  apply (@C8_no_flag_runs_all demo_libs demo_args demo_world demo_out demo_world0).
  - vm_compute. reflexivity.
  - reflexivity.
  - reflexivity.
  - reflexivity.
  - reflexivity.
  - vm_compute. reflexivity.
  - apply (bool_decide_unpack _). vm_compute. exact I.
Defined.
